(** * FramebufferSurface: the framebuffer hand-off surface of SurfaceFlinger

    A shallow embedding of
    [services/surfaceflinger/DisplayHardware/FramebufferSurface.cpp]
    and the properties of its buffer hand-off protocol.

    The class derives from [ConsumerBase] and talks to two collaborators:
    the buffer queue behind [ConsumerBase] and the hardware composer
    [HWComposer].  Neither is part of this file's source; they are taken
    as interfaces (type classes) over an abstract state, and every call the
    surface makes to them is recorded in a trace, so that statements such
    as "no release call is issued" can be written down. *)

From Stdlib Require Import ZArith List String Bool Lia.
Import ListNotations.

#[local] Open Scope Z_scope.

(** ** Plain data *)

(** [status_t] is a 32-bit signed integer; the code only compares and
    forwards it, so no arithmetic (and no wrap-around) is involved. *)
Definition status_t := Z.

(** utils/Errors.h: [NO_ERROR = 0], [INVALID_OPERATION = -ENOSYS].  Of the
    values of the status codes, here and in [BufferQueue] below, the
    properties use only that [NO_BUFFER_AVAILABLE] and [INVALID_OPERATION]
    are not [NO_ERROR]. *)
Definition NO_ERROR : status_t := 0.
Definition INVALID_OPERATION : status_t := -38.

(** [sp<T>]: a strong pointer, possibly null. *)
Definition sp (T : Type) : Type := option T.

(** [Fence]: built from a raw file descriptor, which it owns from then on. *)
Record Fence : Type := mkFence { mFenceFd : Z }.

(** [ui/Rect.h] *)
Record Rect : Type := mkRect { left : Z; top : Z; right : Z; bottom : Z }.

Definition EGLDisplay := Z.
Definition EGLSyncKHR := Z.
Definition EGL_NO_DISPLAY : EGLDisplay := 0.
Definition EGL_NO_SYNC_KHR : EGLSyncKHR := 0.

Module BufferQueue.

(** gui/BufferQueue.h: [enum { INVALID_BUFFER_SLOT = -1 }] (the
    constructor initialises [mCurrentBufferSlot] with the literal -1) and
    [enum { STALE_BUFFER_SLOT = 1, NO_BUFFER_AVAILABLE }]. *)
Definition INVALID_BUFFER_SLOT : Z := -1.
Definition STALE_BUFFER_SLOT : status_t := 1.
Definition NO_BUFFER_AVAILABLE : status_t := 2.

(** [BufferQueue::BufferItem], the fields the surface and its base read. *)
Record BufferItem (G : Type) : Type := mkBufferItem {
  mGraphicBuffer : sp G;
  mFence : sp Fence;
  mBuf : Z
}.
Arguments mkBufferItem {G}.
Arguments mGraphicBuffer {G}.
Arguments mFence {G}.
Arguments mBuf {G}.

End BufferQueue.

Module ConsumerBase.

(** [ConsumerBase::Slot], an entry of [mSlots]. *)
Record Slot (G : Type) : Type := mkSlot {
  mGraphicBuffer : sp G;
  mFence : sp Fence
}.
Arguments mkSlot {G}.
Arguments mGraphicBuffer {G}.
Arguments mFence {G}.

(** The protected interface of the base class used by the surface, over
    the base class's own state [Q] ([mSlots] and [mBufferQueue]).  The
    private fields of [FramebufferSurface] are not part of [Q].

    [slots q i] is [mSlots[i]]; the queue only hands out indices of
    existing slots, the lookup is taken as total. *)
Class Ops (G Q : Type) : Type := {
  acquireBuffer : Q -> status_t * BufferQueue.BufferItem G * Q;
  releaseBuffer : Z -> EGLDisplay -> EGLSyncKHR -> Q -> status_t * Q;
  addFence : Z -> sp Fence -> Q -> status_t * Q;
  freeBuffer : Z -> Q -> Q;
  slots : Q -> Z -> Slot G
}.

End ConsumerBase.

Module HWComposer.

(** The part of [HWComposer] the surface calls, over its state [H]. *)
Class Ops (G H : Type) : Type := {
  post : Z -> sp Fence -> sp G -> H -> status_t * H;
  compositionComplete : H -> status_t * H
}.

End HWComposer.

(** ** The object, its trace and the monad of its methods *)

Section Surface.

(** [GraphicBuffer] objects are opaque; only handles to them move. *)
Context {GraphicBuffer Q H : Type}.
Context {CB : ConsumerBase.Ops GraphicBuffer Q}.
Context {HWC : HWComposer.Ops GraphicBuffer H}.

(** What the surface does to the outside, in the order it happens. *)
Inductive Effect : Type :=
| EAcquireBuffer (err : status_t) (item : BufferQueue.BufferItem GraphicBuffer)
| EReleaseBuffer (slot : Z) (dpy : EGLDisplay) (sync : EGLSyncKHR) (err : status_t)
| EFreeBuffer (slot : Z)
| ENewFence (fd : Z)
| EAddReleaseFence (slot : Z) (fence : sp Fence) (err : status_t)
| EFbPost (id : Z) (fence : sp Fence) (buf : sp GraphicBuffer) (err : status_t)
| EFbCompositionComplete (err : status_t)
| ELog (fmt : string) (err : status_t).

(** The fields of a [FramebufferSurface]; [base] is the [ConsumerBase]
    sub-object, [trace] the effects so far (oldest first). *)
Record FramebufferSurface : Type := mkSurface {
  base : Q;
  mCurrentBufferSlot : Z;
  mCurrentBuffer : sp GraphicBuffer;
  mHwc : H;
  trace : list Effect
}.

Definition M (A : Type) : Type := FramebufferSurface -> A * FramebufferSurface.

Definition ret {A} (a : A) : M A := fun s => (a, s).
Definition bind {A B} (m : M A) (k : A -> M B) : M B :=
  fun s => let (a, s') := m s in k a s'.
Definition gets {A} (f : FramebufferSurface -> A) : M A := fun s => (f s, s).
Definition modify (f : FramebufferSurface -> FramebufferSurface) : M unit :=
  fun s => (tt, f s).

Definition with_base (q : Q) (s : FramebufferSurface) : FramebufferSurface :=
  mkSurface q (mCurrentBufferSlot s) (mCurrentBuffer s) (mHwc s) (trace s).
Definition with_slot (i : Z) (s : FramebufferSurface) : FramebufferSurface :=
  mkSurface (base s) i (mCurrentBuffer s) (mHwc s) (trace s).
Definition with_buffer (b : sp GraphicBuffer) (s : FramebufferSurface)
  : FramebufferSurface :=
  mkSurface (base s) (mCurrentBufferSlot s) b (mHwc s) (trace s).
Definition with_hwc (h : H) (s : FramebufferSurface) : FramebufferSurface :=
  mkSurface (base s) (mCurrentBufferSlot s) (mCurrentBuffer s) h (trace s).
Definition emit (e : Effect) : M unit :=
  modify (fun s =>
    mkSurface (base s) (mCurrentBufferSlot s) (mCurrentBuffer s) (mHwc s)
              (trace s ++ [e])).

End Surface.

Arguments Effect : clear implicits.
Arguments FramebufferSurface : clear implicits.
Arguments M : clear implicits.

Declare Scope fb_scope.
Delimit Scope fb_scope with fb.
Notation "x <- c1 ;; c2" := (bind c1 (fun x => c2))
  (at level 61, c1 at next level, right associativity) : fb_scope.
Notation "' pat <- c1 ;; c2" := (bind c1 (fun x => match x with pat => c2 end))
  (at level 61, pat pattern, c1 at next level, right associativity) : fb_scope.
Notation "c1 ;; c2" := (bind c1 (fun _ => c2))
  (at level 61, right associativity) : fb_scope.
#[local] Open Scope fb_scope.

(** ** The methods of [FramebufferSurface] *)

Section Methods.

Context {GraphicBuffer Q H : Type}.
Context {CB : ConsumerBase.Ops GraphicBuffer Q}.
Context {HWC : HWComposer.Ops GraphicBuffer H}.

#[local] Abbreviation Surface := (FramebufferSurface GraphicBuffer Q H).
#[local] Abbreviation Run := (M GraphicBuffer Q H).
#[local] Abbreviation BufferItem := (BufferQueue.BufferItem GraphicBuffer).

(** *** Calls into the base class and the composer, each one traced *)

Definition ALOGE (fmt : string) (err : status_t) : Run unit :=
  emit (ELog fmt err).

Definition acquireBufferLocked : Run (status_t * BufferItem) :=
  q <- gets base ;;
  let '(err, item, q') := ConsumerBase.acquireBuffer q in
  modify (with_base q') ;;
  emit (EAcquireBuffer err item) ;;
  ret (err, item).

Definition releaseBufferLocked (slot : Z) (dpy : EGLDisplay) (sync : EGLSyncKHR)
  : Run status_t :=
  q <- gets base ;;
  let '(err, q') := ConsumerBase.releaseBuffer slot dpy sync q in
  modify (with_base q') ;;
  emit (EReleaseBuffer slot dpy sync err) ;;
  ret err.

Definition addReleaseFence (slot : Z) (fence : sp Fence) : Run status_t :=
  q <- gets base ;;
  let '(err, q') := ConsumerBase.addFence slot fence q in
  modify (with_base q') ;;
  emit (EAddReleaseFence slot fence err) ;;
  ret err.

Definition ConsumerBase_freeBufferLocked (slotIndex : Z) : Run unit :=
  modify (fun s => with_base (ConsumerBase.freeBuffer slotIndex (base s)) s) ;;
  emit (EFreeBuffer slotIndex).

Definition mSlots (i : Z) : Run (ConsumerBase.Slot GraphicBuffer) :=
  gets (fun s => ConsumerBase.slots (base s) i).

(** [new Fence(fenceFd)]: the descriptor changes owner. *)
Definition new_Fence (fenceFd : Z) : Run (sp Fence) :=
  emit (ENewFence fenceFd) ;;
  ret (Some (mkFence fenceFd)).

Definition fbPost (id : Z) (fence : sp Fence) (buf : sp GraphicBuffer)
  : Run status_t :=
  h <- gets mHwc ;;
  let '(err, h') := HWComposer.post id fence buf h in
  modify (with_hwc h') ;;
  emit (EFbPost id fence buf err) ;;
  ret err.

Definition fbCompositionComplete : Run status_t :=
  h <- gets mHwc ;;
  let '(err, h') := HWComposer.compositionComplete h in
  modify (with_hwc h') ;;
  emit (EFbCompositionComplete err) ;;
  ret err.

(** *** [FramebufferSurface::FramebufferSurface]

    [q] is the base sub-object once the constructor body has configured
    the queue; the two fields of the class start at -1 and null. *)
Definition FramebufferSurface_new (q : Q) (hwc : H) : Surface :=
  mkSurface q (-1) None hwc [].

(** *** [FramebufferSurface::nextBuffer]

    [outBuffer] and [outFence] are reference parameters: the result
    carries their values at return, which are the caller's own wherever
    the code does not assign them. *)

(** Lines 108-112, reached once nothing can fail any more. *)
Definition nextBuffer_latch (item : BufferItem)
  : Run (status_t * sp GraphicBuffer * sp Fence) :=
  modify (with_slot (BufferQueue.mBuf item)) ;;
  cur <- gets mCurrentBufferSlot ;;
  slot <- mSlots cur ;;
  modify (with_buffer (ConsumerBase.mGraphicBuffer slot)) ;;
  let outFence := BufferQueue.mFence item in
  outBuffer <- gets mCurrentBuffer ;;
  ret (NO_ERROR, outBuffer, outFence).

Definition nextBuffer (outBuffer : sp GraphicBuffer) (outFence : sp Fence)
  : Run (status_t * sp GraphicBuffer * sp Fence) :=
  '(err, item) <- acquireBufferLocked ;;
  if err =? BufferQueue.NO_BUFFER_AVAILABLE then
    outBuffer <- gets mCurrentBuffer ;;
    ret (NO_ERROR, outBuffer, outFence)
  else if negb (err =? NO_ERROR) then
    ALOGE "error acquiring buffer: %s (%d)"%string err ;;
    ret (err, outBuffer, outFence)
  else
    cur <- gets mCurrentBufferSlot ;;
    if negb (cur =? BufferQueue.INVALID_BUFFER_SLOT)
       && negb (BufferQueue.mBuf item =? cur) then
      err <- releaseBufferLocked cur EGL_NO_DISPLAY EGL_NO_SYNC_KHR ;;
      if negb (err =? NO_ERROR) && negb (err =? BufferQueue.STALE_BUFFER_SLOT) then
        ALOGE "error releasing buffer: %s (%d)"%string err ;;
        ret (err, outBuffer, outFence)
      else nextBuffer_latch item
    else nextBuffer_latch item.

(** *** [FramebufferSurface::onFrameAvailable] *)

(** Lines 120-128: what is done with the result of [nextBuffer]. *)
Definition onFrameAvailable_post (r : status_t * sp GraphicBuffer * sp Fence)
  : Run unit :=
  let '(err, buf, acquireFence) := r in
  if negb (err =? NO_ERROR) then
    ALOGE "error latching nnext FramebufferSurface buffer: %s (%d)"%string err
  else
    err <- fbPost 0 acquireFence buf ;;
    if negb (err =? NO_ERROR) then
      ALOGE "error posting framebuffer: %d"%string err
    else ret tt.

Definition onFrameAvailable : Run unit :=
  let buf : sp GraphicBuffer := None in
  let acquireFence : sp Fence := None in
  r <- nextBuffer buf acquireFence ;;
  onFrameAvailable_post r.

(** *** [FramebufferSurface::freeBufferLocked] *)
Definition freeBufferLocked (slotIndex : Z) : Run unit :=
  ConsumerBase_freeBufferLocked slotIndex ;;
  cur <- gets mCurrentBufferSlot ;;
  if slotIndex =? cur then
    modify (with_slot BufferQueue.INVALID_BUFFER_SLOT)
  else ret tt.

(** *** [FramebufferSurface::setReleaseFenceFd]

    The [err] assigned from [addReleaseFence] is a second variable,
    declared in the inner block; the function returns the outer one. *)
Definition setReleaseFenceFd (fenceFd : Z) : Run status_t :=
  let err := NO_ERROR in
  (if fenceFd >=? 0 then
     fence <- new_Fence fenceFd ;;
     cur <- gets mCurrentBufferSlot ;;
     if negb (cur =? BufferQueue.INVALID_BUFFER_SLOT) then
       err' <- addReleaseFence cur fence ;;
       if negb (err' =? 0) then
         ALOGE "setReleaseFenceFd: failed to add the fence: %s (%d)"%string err'
       else ret tt
     else ret tt
   else ret tt) ;;
  ret err.

(** *** [FramebufferSurface::setUpdateRectangle] *)
Definition setUpdateRectangle (r : Rect) : Run status_t :=
  ret INVALID_OPERATION.

(** *** [FramebufferSurface::compositionComplete] *)
Definition compositionComplete : Run status_t :=
  fbCompositionComplete.

End Methods.


(** ** Observations on traces and histories of calls *)

Section Histories.

Context {GraphicBuffer Q H : Type}.
Context {CB : ConsumerBase.Ops GraphicBuffer Q}.
Context {HWC : HWComposer.Ops GraphicBuffer H}.

#[local] Abbreviation Run := (M GraphicBuffer Q H).

Definition is_release (e : Effect GraphicBuffer) : bool :=
  match e with EReleaseBuffer _ _ _ _ => true | _ => false end.

Definition is_post (e : Effect GraphicBuffer) : bool :=
  match e with EFbPost _ _ _ _ => true | _ => false end.

(** The parts of what a call returns: status, out-parameters, object. *)
Definition status_of {A B S : Type} (r : status_t * A * B * S) : status_t :=
  fst (fst (fst r)).
Definition buffer_of {A B S : Type} (r : status_t * A * B * S) : A :=
  snd (fst (fst r)).
Definition fence_of {A B S : Type} (r : status_t * A * B * S) : B :=
  snd (fst r).

(** The public entry points, as a caller (SurfaceFlinger, the queue's
    listener, the base class) may invoke them one after the other; and, in
    between, whatever the producer side does to the queue and to the slot
    table, which is not the surface's doing and leaves no trace. *)
Inductive Call : Type :=
| CNextBuffer (outBuffer : sp GraphicBuffer) (outFence : sp Fence)
| COnFrameAvailable
| CFreeBufferLocked (slotIndex : Z)
| CSetReleaseFenceFd (fenceFd : Z)
| CSetUpdateRectangle (r : Rect)
| CCompositionComplete
| CQueueActivity (f : Q -> Q).

(** The buffer returned by the most recent successful [nextBuffer], given
    the one before this call: a result with [NO_ERROR] replaces it. *)
Definition latest (r : status_t * sp GraphicBuffer * sp Fence)
  (last : sp GraphicBuffer) : sp GraphicBuffer :=
  let '(err, buf, _) := r in if err =? NO_ERROR then buf else last.

Definition call (c : Call) (last : sp GraphicBuffer) : Run (sp GraphicBuffer) :=
  match c with
  | CNextBuffer outBuffer outFence =>
      r <- nextBuffer outBuffer outFence ;; ret (latest r last)
  | COnFrameAvailable =>
      r <- nextBuffer None None ;; onFrameAvailable_post r ;; ret (latest r last)
  | CFreeBufferLocked slotIndex => freeBufferLocked slotIndex ;; ret last
  | CSetReleaseFenceFd fenceFd => setReleaseFenceFd fenceFd ;; ret last
  | CSetUpdateRectangle r => setUpdateRectangle r ;; ret last
  | CCompositionComplete => compositionComplete ;; ret last
  | CQueueActivity f => modify (fun s => with_base (f (base s)) s) ;; ret last
  end.

Fixpoint calls (cs : list Call) (last : sp GraphicBuffer) : Run (sp GraphicBuffer) :=
  match cs with
  | [] => ret last
  | c :: cs' => last' <- call c last ;; calls cs' last'
  end.

(** *** What a call adds to the trace, and which slots it may name *)

Definition is_acquire (e : Effect GraphicBuffer) : bool :=
  match e with EAcquireBuffer _ _ => true | _ => false end.

Definition is_add_release_fence (e : Effect GraphicBuffer) : bool :=
  match e with EAddReleaseFence _ _ _ => true | _ => false end.

Definition is_new_fence (e : Effect GraphicBuffer) : bool :=
  match e with ENewFence _ => true | _ => false end.

Definition is_log (e : Effect GraphicBuffer) : bool :=
  match e with ELog _ _ => true | _ => false end.

(** The effects of running [m] from [s]: what the trace has gained. *)
Definition issued_by {A : Type} (m : Run A) (s : FramebufferSurface GraphicBuffer Q H)
  : list (Effect GraphicBuffer) :=
  skipn (List.length (trace s)) (trace (snd (m s))).

(** The slots delivered so far by successful acquires, newest first. *)
Fixpoint delivered (seen : list Z) (tr : list (Effect GraphicBuffer)) : list Z :=
  match tr with
  | [] => seen
  | EAcquireBuffer err item :: tr' =>
      delivered (if err =? NO_ERROR then BufferQueue.mBuf item :: seen else seen) tr'
  | _ :: tr' => delivered seen tr'
  end.

Definition slot_in (slot : Z) (seen : list Z) : bool :=
  existsb (Z.eqb slot) seen.

(** Every release and every added release fence of [tr] names a slot that
    a successful acquire delivered earlier in [tr] (or that is in [seen]),
    and never [INVALID_BUFFER_SLOT]. *)
Fixpoint well_targeted (seen : list Z) (tr : list (Effect GraphicBuffer)) : bool :=
  match tr with
  | [] => true
  | EAcquireBuffer err item :: tr' =>
      well_targeted
        (if err =? NO_ERROR then BufferQueue.mBuf item :: seen else seen) tr'
  | EReleaseBuffer slot _ _ _ :: tr' =>
      slot_in slot seen && negb (slot =? BufferQueue.INVALID_BUFFER_SLOT)
      && well_targeted seen tr'
  | EAddReleaseFence slot _ _ :: tr' =>
      slot_in slot seen && negb (slot =? BufferQueue.INVALID_BUFFER_SLOT)
      && well_targeted seen tr'
  | _ :: tr' => well_targeted seen tr'
  end.

(** The trace is well targeted and the current slot, if there is one, was
    delivered by a successful acquire of the trace. *)
Definition tracks_delivered (s : FramebufferSurface GraphicBuffer Q H) : bool :=
  well_targeted [] (trace s)
  && ((mCurrentBufferSlot s =? BufferQueue.INVALID_BUFFER_SLOT)
      || slot_in (mCurrentBufferSlot s) (delivered [] (trace s))).

(** The calls of a history that run [onFrameAvailable], and those that run
    [nextBuffer] (directly or through [onFrameAvailable]). *)
Definition is_frame (c : Call) : bool :=
  match c with COnFrameAvailable => true | _ => false end.

Definition is_latch (c : Call) : bool :=
  match c with CNextBuffer _ _ | COnFrameAvailable => true | _ => false end.

End Histories.

Arguments Call : clear implicits.

(** ** Test doubles for the queue and the composer *)

Module Fake.

(** Graphic buffers are told apart by a number. *)
Definition Buffer := Z.

Definition no_slot : ConsumerBase.Slot Buffer := ConsumerBase.mkSlot None None.
Definition no_item : BufferQueue.BufferItem Buffer :=
  BufferQueue.mkBufferItem None None BufferQueue.INVALID_BUFFER_SLOT.

Definition lookup (t : list (ConsumerBase.Slot Buffer)) (i : Z)
  : ConsumerBase.Slot Buffer :=
  if i <? 0 then no_slot else nth (Z.to_nat i) t no_slot.

Definition store (t : list (ConsumerBase.Slot Buffer)) (i : Z)
  (s : ConsumerBase.Slot Buffer) : list (ConsumerBase.Slot Buffer) :=
  if (i <? 0) || (Z.of_nat (List.length t) <=? i) then t
  else firstn (Z.to_nat i) t ++ s :: skipn (S (Z.to_nat i)) t.

(** A scripted queue: the answers [acquireBuffer] will give, in order, a
    fixed answer for [releaseBuffer] and for [addReleaseFence], and the
    slot table. *)
Record Queue : Type := mkQueue {
  pending : list (status_t * BufferQueue.BufferItem Buffer);
  releaseResult : status_t;
  addFenceResult : status_t;
  table : list (ConsumerBase.Slot Buffer)
}.

(** An acquired item's buffer and fence are stored in its slot; with
    nothing pending the queue answers [NO_BUFFER_AVAILABLE]. *)
Definition acquire (q : Queue) : status_t * BufferQueue.BufferItem Buffer * Queue :=
  match pending q with
  | [] => (BufferQueue.NO_BUFFER_AVAILABLE, no_item, q)
  | (err, item) :: rest =>
      let t :=
        if err =? NO_ERROR then
          let i := BufferQueue.mBuf item in
          let g := match BufferQueue.mGraphicBuffer item with
                   | Some b => Some b
                   | None => ConsumerBase.mGraphicBuffer (lookup (table q) i)
                   end in
          store (table q) i (ConsumerBase.mkSlot g (BufferQueue.mFence item))
        else table q in
      (err, item, mkQueue rest (releaseResult q) (addFenceResult q) t)
  end.

Definition release (slot : Z) (dpy : EGLDisplay) (sync : EGLSyncKHR) (q : Queue)
  : status_t * Queue :=
  (releaseResult q, q).

Definition add_fence (slot : Z) (fence : sp Fence) (q : Queue) : status_t * Queue :=
  (addFenceResult q, q).

Definition free (slot : Z) (q : Queue) : Queue :=
  mkQueue (pending q) (releaseResult q) (addFenceResult q)
          (store (table q) slot no_slot).

#[export] Instance queue_ops : ConsumerBase.Ops Buffer Queue := {
  ConsumerBase.acquireBuffer := acquire;
  ConsumerBase.releaseBuffer := release;
  ConsumerBase.addFence := add_fence;
  ConsumerBase.freeBuffer := free;
  ConsumerBase.slots q i := lookup (table q) i
}.

(** A composer that remembers what was posted and answers [postResult]. *)
Record Hwc : Type := mkHwc {
  posted : list (sp Fence * sp Buffer);
  postResult : status_t
}.

#[export] Instance hwc_ops : HWComposer.Ops Buffer Hwc := {
  HWComposer.post id fence buf h :=
    (postResult h, mkHwc (posted h ++ [(fence, buf)]) (postResult h));
  HWComposer.compositionComplete h := (NO_ERROR, h)
}.

Definition Surface := FramebufferSurface Buffer Queue Hwc.

Definition item (slot : Z) (buf : Buffer) (fd : Z) : BufferQueue.BufferItem Buffer :=
  BufferQueue.mkBufferItem (Some buf) (Some (mkFence fd)) slot.

Definition three_slots : list (ConsumerBase.Slot Buffer) := [no_slot; no_slot; no_slot].

Definition hwc0 : Hwc := mkHwc [] NO_ERROR.

(** A surface showing buffer 100 from slot 0, nothing pending. *)
Definition showing0 : Surface :=
  mkSurface (mkQueue [] NO_ERROR NO_ERROR
               [ConsumerBase.mkSlot (Some 100) None; no_slot; no_slot])
            0 (Some 100) hwc0 [].

(** The same surface with the given answers pending in the queue, and the
    given answers to a release and to an added release fence. *)
Definition showing0_with (p : list (status_t * BufferQueue.BufferItem Buffer))
  (rel addf : status_t) : Surface :=
  mkSurface (mkQueue p rel addf
               [ConsumerBase.mkSlot (Some 100) None; no_slot; no_slot])
            0 (Some 100) hwc0 [].

(** A freshly constructed surface over a three-slot queue with the given
    script. *)
Definition fresh_with (p : list (status_t * BufferQueue.BufferItem Buffer))
  (rel addf : status_t) : Surface :=
  FramebufferSurface_new (mkQueue p rel addf three_slots) hwc0.

(** Two frames are queued, for slots 0 and 1; both get latched, one through
    the listener and one directly. *)
Definition two_frames : Surface :=
  fresh_with [(NO_ERROR, item 0 10 3); (NO_ERROR, item 1 11 4)] NO_ERROR NO_ERROR.
Definition two_latches : list (Call Buffer Queue) :=
  [COnFrameAvailable; CNextBuffer None None].

(** The scenario of a three-slot pool delivering slot 0, slot 1, nothing,
    then slot 0 again with a new buffer. *)
Definition scenario : Surface :=
  fresh_with [(NO_ERROR, item 0 10 3); (NO_ERROR, item 1 11 4);
              (BufferQueue.NO_BUFFER_AVAILABLE, no_item);
              (NO_ERROR, item 0 12 5)] NO_ERROR NO_ERROR.

(** utils/Errors.h: [DEAD_OBJECT = -EPIPE], [BAD_VALUE = -EINVAL]. *)
Definition DEAD_OBJECT : status_t := -32.
Definition BAD_VALUE : status_t := -22.

(** A surface showing buffer 100 from slot 0 whose composer refuses posts. *)
Definition showing0_refusing (p : list (status_t * BufferQueue.BufferItem Buffer))
  : Surface :=
  mkSurface (mkQueue p NO_ERROR NO_ERROR
               [ConsumerBase.mkSlot (Some 100) None; no_slot; no_slot])
            0 (Some 100) (mkHwc [] DEAD_OBJECT) [].

(** Every entry point once, around two frames and a queue that drops
    whatever is still pending. *)
Definition busy_history : list (Call Buffer Queue) :=
  [CSetReleaseFenceFd 8; COnFrameAvailable; CSetReleaseFenceFd 9;
   CNextBuffer None None; CFreeBufferLocked 1; CSetReleaseFenceFd 10;
   CSetUpdateRectangle (mkRect 0 0 4 4); CCompositionComplete;
   CQueueActivity (fun q =>
     mkQueue [] (releaseResult q) (addFenceResult q) (table q));
   COnFrameAvailable].

End Fake.


(** ** Properties *)

Section Properties.

Context {GraphicBuffer Q H : Type}.
Context {CB : ConsumerBase.Ops GraphicBuffer Q}.
Context {HWC : HWComposer.Ops GraphicBuffer H}.

#[local] Abbreviation Surface := (FramebufferSurface GraphicBuffer Q H).
#[local] Abbreviation BufferItem := (BufferQueue.BufferItem GraphicBuffer).

Ltac run :=
  unfold nextBuffer, nextBuffer_latch, onFrameAvailable, onFrameAvailable_post,
    freeBufferLocked, setReleaseFenceFd, setUpdateRectangle, compositionComplete,
    acquireBufferLocked, releaseBufferLocked, addReleaseFence,
    ConsumerBase_freeBufferLocked, mSlots, new_Fence, fbPost,
    fbCompositionComplete, ALOGE, emit, modify, gets, bind, ret,
    with_base, with_slot, with_buffer, with_hwc;
  cbn [base mCurrentBufferSlot mCurrentBuffer mHwc trace fst snd].

(** *** The branches of [nextBuffer], one equation each *)

Lemma nextBuffer_no_buffer (s : Surface) outBuffer outFence item q1 :
  ConsumerBase.acquireBuffer (base s)
    = (BufferQueue.NO_BUFFER_AVAILABLE, item, q1) ->
  nextBuffer outBuffer outFence s
    = (NO_ERROR, mCurrentBuffer s, outFence,
       mkSurface q1 (mCurrentBufferSlot s) (mCurrentBuffer s) (mHwc s)
         (trace s ++ [EAcquireBuffer BufferQueue.NO_BUFFER_AVAILABLE item])).
Proof.
  intros Hacq. run. rewrite Hacq. reflexivity.
Qed.

Lemma nextBuffer_acquire_error (s : Surface) outBuffer outFence err item q1 :
  ConsumerBase.acquireBuffer (base s) = (err, item, q1) ->
  err <> BufferQueue.NO_BUFFER_AVAILABLE -> err <> NO_ERROR ->
  nextBuffer outBuffer outFence s
    = (err, outBuffer, outFence,
       mkSurface q1 (mCurrentBufferSlot s) (mCurrentBuffer s) (mHwc s)
         ((trace s ++ [EAcquireBuffer err item])
            ++ [ELog "error acquiring buffer: %s (%d)" err])).
Proof.
  intros Hacq Hnb Herr. run. rewrite Hacq.
  apply Z.eqb_neq in Hnb, Herr. cbn. rewrite Hnb, Herr. reflexivity.
Qed.

Lemma nextBuffer_no_release (s : Surface) outBuffer outFence item q1 :
  ConsumerBase.acquireBuffer (base s) = (NO_ERROR, item, q1) ->
  mCurrentBufferSlot s = BufferQueue.INVALID_BUFFER_SLOT
  \/ BufferQueue.mBuf item = mCurrentBufferSlot s ->
  let buf := ConsumerBase.mGraphicBuffer
               (ConsumerBase.slots q1 (BufferQueue.mBuf item)) in
  nextBuffer outBuffer outFence s
    = (NO_ERROR, buf, BufferQueue.mFence item,
       mkSurface q1 (BufferQueue.mBuf item) buf (mHwc s)
         (trace s ++ [EAcquireBuffer NO_ERROR item])).
Proof.
  intros Hacq Hskip buf. subst buf. run. rewrite Hacq. cbn.
  destruct Hskip as [Hinv | Hsame].
  - rewrite Hinv. reflexivity.
  - rewrite Hsame, Z.eqb_refl, andb_false_r. reflexivity.
Qed.

Lemma nextBuffer_released (s : Surface) outBuffer outFence item q1 err q2 :
  ConsumerBase.acquireBuffer (base s) = (NO_ERROR, item, q1) ->
  mCurrentBufferSlot s <> BufferQueue.INVALID_BUFFER_SLOT ->
  BufferQueue.mBuf item <> mCurrentBufferSlot s ->
  ConsumerBase.releaseBuffer (mCurrentBufferSlot s) EGL_NO_DISPLAY
    EGL_NO_SYNC_KHR q1 = (err, q2) ->
  err = NO_ERROR \/ err = BufferQueue.STALE_BUFFER_SLOT ->
  let buf := ConsumerBase.mGraphicBuffer
               (ConsumerBase.slots q2 (BufferQueue.mBuf item)) in
  nextBuffer outBuffer outFence s
    = (NO_ERROR, buf, BufferQueue.mFence item,
       mkSurface q2 (BufferQueue.mBuf item) buf (mHwc s)
         ((trace s ++ [EAcquireBuffer NO_ERROR item])
            ++ [EReleaseBuffer (mCurrentBufferSlot s) EGL_NO_DISPLAY
                  EGL_NO_SYNC_KHR err])).
Proof.
  intros Hacq Hvalid Hdiff Hrel Herr buf. subst buf. run. rewrite Hacq. cbn.
  apply Z.eqb_neq in Hvalid, Hdiff. rewrite Hvalid, Hdiff. cbn.
  rewrite Hrel. cbn.
  destruct Herr as [-> | ->]; reflexivity.
Qed.

Lemma nextBuffer_release_error (s : Surface) outBuffer outFence item q1 err q2 :
  ConsumerBase.acquireBuffer (base s) = (NO_ERROR, item, q1) ->
  mCurrentBufferSlot s <> BufferQueue.INVALID_BUFFER_SLOT ->
  BufferQueue.mBuf item <> mCurrentBufferSlot s ->
  ConsumerBase.releaseBuffer (mCurrentBufferSlot s) EGL_NO_DISPLAY
    EGL_NO_SYNC_KHR q1 = (err, q2) ->
  err <> NO_ERROR -> err <> BufferQueue.STALE_BUFFER_SLOT ->
  nextBuffer outBuffer outFence s
    = (err, outBuffer, outFence,
       mkSurface q2 (mCurrentBufferSlot s) (mCurrentBuffer s) (mHwc s)
         (((trace s ++ [EAcquireBuffer NO_ERROR item])
             ++ [EReleaseBuffer (mCurrentBufferSlot s) EGL_NO_DISPLAY
                   EGL_NO_SYNC_KHR err])
            ++ [ELog "error releasing buffer: %s (%d)" err])).
Proof.
  intros Hacq Hvalid Hdiff Hrel Herr Hstale. run. rewrite Hacq. cbn.
  apply Z.eqb_neq in Hvalid, Hdiff, Herr, Hstale. rewrite Hvalid, Hdiff. cbn.
  rewrite Hrel. cbn. rewrite Herr, Hstale. reflexivity.
Qed.

(** Every call of [nextBuffer] goes through one of the five branches. *)
Ltac nextBuffer_cases s outBuffer outFence :=
  let err := fresh "err" in
  let item := fresh "item" in
  let q1 := fresh "q1" in
  let rerr := fresh "rerr" in
  let q2 := fresh "q2" in
  let Hacq := fresh "Hacq" in
  let Hrel := fresh "Hrel" in
  let Hnb := fresh "Hnb" in
  let Hok := fresh "Hok" in
  let Hinv := fresh "Hinv" in
  let Hsame := fresh "Hsame" in
  let Hrok := fresh "Hrok" in
  let Hstale := fresh "Hstale" in
  destruct (ConsumerBase.acquireBuffer (base s)) as [[err item] q1] eqn:Hacq;
  destruct (Z.eq_dec err BufferQueue.NO_BUFFER_AVAILABLE) as [Hnb | Hnb];
  [ subst err; rewrite (nextBuffer_no_buffer s outBuffer outFence _ _ Hacq)
  | destruct (Z.eq_dec err NO_ERROR) as [Hok | Hok];
    [ subst err;
      destruct (Z.eq_dec (mCurrentBufferSlot s) BufferQueue.INVALID_BUFFER_SLOT)
        as [Hinv | Hinv];
      [ rewrite (nextBuffer_no_release s outBuffer outFence _ _ Hacq
                   (or_introl Hinv))
      | destruct (Z.eq_dec (BufferQueue.mBuf item) (mCurrentBufferSlot s))
          as [Hsame | Hsame];
        [ rewrite (nextBuffer_no_release s outBuffer outFence _ _ Hacq
                     (or_intror Hsame))
        | destruct (ConsumerBase.releaseBuffer (mCurrentBufferSlot s)
                      EGL_NO_DISPLAY EGL_NO_SYNC_KHR q1)
            as [rerr q2] eqn:Hrel;
          destruct (Z.eq_dec rerr NO_ERROR) as [Hrok | Hrok];
          [ rewrite (nextBuffer_released s outBuffer outFence _ _ _ _ Hacq
                       Hinv Hsame Hrel (or_introl Hrok))
          | destruct (Z.eq_dec rerr BufferQueue.STALE_BUFFER_SLOT)
              as [Hstale | Hstale];
            [ rewrite (nextBuffer_released s outBuffer outFence _ _ _ _ Hacq
                         Hinv Hsame Hrel (or_intror Hstale))
            | rewrite (nextBuffer_release_error s outBuffer outFence _ _ _ _
                         Hacq Hinv Hsame Hrel Hrok Hstale) ] ] ] ]
    | rewrite (nextBuffer_acquire_error s outBuffer outFence _ _ _ Hacq Hnb Hok)
    ] ].

(** [nextBuffer] never touches the composer. *)
Lemma nextBuffer_leaves_hwc (s : Surface) outBuffer outFence :
  mHwc (snd (nextBuffer outBuffer outFence s)) = mHwc s
  /\ filter is_post (trace (snd (nextBuffer outBuffer outFence s)))
     = filter is_post (trace s).
Proof.
  nextBuffer_cases s outBuffer outFence; cbn [snd mHwc trace];
    rewrite ?filter_app; cbn; rewrite ?app_nil_r; auto.
Qed.

(** A failing [nextBuffer] leaves the two fields and the out-parameters. *)
Lemma nextBuffer_failure_frame (s : Surface) outBuffer outFence :
  status_of (nextBuffer outBuffer outFence s) <> NO_ERROR ->
  mCurrentBufferSlot (snd (nextBuffer outBuffer outFence s)) = mCurrentBufferSlot s
  /\ mCurrentBuffer (snd (nextBuffer outBuffer outFence s)) = mCurrentBuffer s
  /\ buffer_of (nextBuffer outBuffer outFence s) = outBuffer
  /\ fence_of (nextBuffer outBuffer outFence s) = outFence.
Proof.
  unfold status_of, buffer_of, fence_of.
  nextBuffer_cases s outBuffer outFence; cbn; intros Hfail;
    try (exfalso; apply Hfail; reflexivity); auto.
Qed.

(** After a successful [nextBuffer] the returned buffer is the tracked one. *)
Lemma nextBuffer_success_tracked (s : Surface) outBuffer outFence :
  status_of (nextBuffer outBuffer outFence s) = NO_ERROR ->
  buffer_of (nextBuffer outBuffer outFence s)
    = mCurrentBuffer (snd (nextBuffer outBuffer outFence s)).
Proof.
  unfold status_of, buffer_of.
  nextBuffer_cases s outBuffer outFence; cbn; intros Hsuccess;
    try reflexivity; congruence.
Qed.

(** *** What the other entry points leave alone *)

Lemma onFrameAvailable_post_keeps_current r (s : Surface) :
  mCurrentBufferSlot (snd (onFrameAvailable_post r s)) = mCurrentBufferSlot s
  /\ mCurrentBuffer (snd (onFrameAvailable_post r s)) = mCurrentBuffer s.
Proof.
  destruct r as [[err buf] fence]. run.
  destruct (negb (err =? NO_ERROR)); cbn; [auto | ].
  destruct (HWComposer.post 0 fence buf (mHwc s)) as [perr h']. cbn.
  destruct (negb (perr =? NO_ERROR)); cbn; auto.
Qed.

Lemma freeBufferLocked_keeps_buffer slotIndex (s : Surface) :
  mCurrentBuffer (snd (freeBufferLocked slotIndex s)) = mCurrentBuffer s.
Proof.
  run. destruct (slotIndex =? mCurrentBufferSlot s); reflexivity.
Qed.

Lemma setReleaseFenceFd_returns_NO_ERROR fenceFd (s : Surface) :
  fst (setReleaseFenceFd fenceFd s) = NO_ERROR.
Proof.
  unfold setReleaseFenceFd. unfold bind at 1.
  match goal with |- fst (let (_, _) := ?m in _) = _ => destruct m end.
  reflexivity.
Qed.

Lemma setReleaseFenceFd_keeps_current fenceFd (s : Surface) :
  mCurrentBufferSlot (snd (setReleaseFenceFd fenceFd s)) = mCurrentBufferSlot s
  /\ mCurrentBuffer (snd (setReleaseFenceFd fenceFd s)) = mCurrentBuffer s.
Proof.
  run. destruct (fenceFd >=? 0); cbn; [ | auto].
  destruct (negb (mCurrentBufferSlot s =? BufferQueue.INVALID_BUFFER_SLOT));
    cbn; [ | auto].
  destruct (ConsumerBase.addFence _ _ _) as [err q']. cbn.
  destruct (negb (err =? 0)); cbn; auto.
Qed.

Lemma compositionComplete_keeps_buffer (s : Surface) :
  mCurrentBuffer (snd (compositionComplete s)) = mCurrentBuffer s.
Proof.
  run. destruct (HWComposer.compositionComplete (mHwc s)). reflexivity.
Qed.

(** *** The tracked buffer is the last one returned *)

Lemma call_tracked c last (s : Surface) :
  mCurrentBuffer s = last ->
  mCurrentBuffer (snd (call c last s)) = fst (call c last s).
Proof.
  intros Htracked.
  destruct c as [outBuffer outFence | | slotIndex | fenceFd | r | | f];
    cbn [call]; unfold bind, ret.
  - pose proof (nextBuffer_failure_frame s outBuffer outFence) as Hfail.
    pose proof (nextBuffer_success_tracked s outBuffer outFence) as Hok.
    unfold status_of, buffer_of in *.
    destruct (nextBuffer outBuffer outFence s) as [[[err buf] fence] s'].
    cbn in *. destruct (Z.eqb_spec err NO_ERROR) as [He | He].
    + symmetry. auto.
    + destruct (Hfail He) as (_ & Hbuf & _). congruence.
  - pose proof (nextBuffer_failure_frame s None None) as Hfail.
    pose proof (nextBuffer_success_tracked s None None) as Hok.
    unfold status_of, buffer_of in *.
    destruct (nextBuffer None None s) as [[[err buf] fence] s'].
    pose proof (onFrameAvailable_post_keeps_current (err, buf, fence) s')
      as [_ Hpost].
    destruct (onFrameAvailable_post (err, buf, fence) s') as [[] s''].
    cbn in *. rewrite Hpost.
    destruct (Z.eqb_spec err NO_ERROR) as [He | He].
    + symmetry. auto.
    + destruct (Hfail He) as (_ & Hbuf & _). congruence.
  - pose proof (freeBufferLocked_keeps_buffer slotIndex s) as Hkeep.
    destruct (freeBufferLocked slotIndex s) as [[] s']. cbn in *. congruence.
  - pose proof (setReleaseFenceFd_keeps_current fenceFd s) as [_ Hkeep].
    destruct (setReleaseFenceFd fenceFd s) as [err s']. cbn in *. congruence.
  - cbn. assumption.
  - pose proof (compositionComplete_keeps_buffer s) as Hkeep.
    destruct (compositionComplete s) as [err s']. cbn in *. congruence.
  - cbn. assumption.
Qed.

Lemma calls_tracked cs : forall last (s : Surface),
  mCurrentBuffer s = last ->
  mCurrentBuffer (snd (calls cs last s)) = fst (calls cs last s).
Proof.
  induction cs as [ | c cs IH]; intros last s Htracked; cbn [calls].
  - cbn. assumption.
  - unfold bind. pose proof (call_tracked c last s Htracked) as Hstep.
    destruct (call c last s) as [last' s']. cbn in Hstep.
    apply IH. assumption.
Qed.

(** *** The hand-off protocol *)

(** C1, same-index skip.  When the surface tracks a valid slot [K] and
    [acquireBufferLocked] delivers an item for that same slot [K],
    [nextBuffer] issues no release call for any slot (the only call it makes
    is the acquire), re-reads the buffer handle from [mSlots[K]] as the base
    class holds it after the acquire, and returns it with the item's fence. *)
Theorem nextBuffer_same_slot_skips_release
  (s : Surface) outBuffer outFence item q1 K :
  ConsumerBase.acquireBuffer (base s) = (NO_ERROR, item, q1) ->
  mCurrentBufferSlot s = K ->
  K <> BufferQueue.INVALID_BUFFER_SLOT ->
  BufferQueue.mBuf item = K ->
  let latest_in_slot :=
    ConsumerBase.mGraphicBuffer (ConsumerBase.slots q1 K) in
  nextBuffer outBuffer outFence s
    = (NO_ERROR, latest_in_slot, BufferQueue.mFence item,
       mkSurface q1 K latest_in_slot (mHwc s)
         (trace s ++ [EAcquireBuffer NO_ERROR item]))
  /\ filter is_release (trace (snd (nextBuffer outBuffer outFence s)))
     = filter is_release (trace s).
Proof.
  intros Hacq Hcur Hvalid Hitem latest_in_slot. subst latest_in_slot.
  assert (Hsame : BufferQueue.mBuf item = mCurrentBufferSlot s) by congruence.
  rewrite (nextBuffer_no_release s outBuffer outFence _ _ Hacq (or_intror Hsame)).
  rewrite Hitem. split; [reflexivity | ].
  cbn [snd trace]. rewrite filter_app. cbn. apply app_nil_r.
Qed.

(** C2, no regression.  After any history of calls on a freshly constructed
    surface, interleaved with any activity of the queue, a [nextBuffer] call for which [acquireBufferLocked] answers
    [NO_BUFFER_AVAILABLE] returns [NO_ERROR]; the buffer it returns is the
    one returned by the most recent successful [nextBuffer] of the history
    (null when there was none), which is the tracked [mCurrentBuffer]; the
    caller's fence variable is not assigned; and [mCurrentBufferSlot] and
    [mCurrentBuffer] are as before the call. *)
Theorem nextBuffer_no_buffer_returns_last_success
  (q : Q) (hwc : H) (history : list (Call GraphicBuffer Q))
  last (s : Surface) outBuffer outFence item q1 :
  calls history None (FramebufferSurface_new q hwc) = (last, s) ->
  ConsumerBase.acquireBuffer (base s)
    = (BufferQueue.NO_BUFFER_AVAILABLE, item, q1) ->
  status_of (nextBuffer outBuffer outFence s) = NO_ERROR
  /\ buffer_of (nextBuffer outBuffer outFence s) = last
  /\ last = mCurrentBuffer s
  /\ fence_of (nextBuffer outBuffer outFence s) = outFence
  /\ mCurrentBufferSlot (snd (nextBuffer outBuffer outFence s))
     = mCurrentBufferSlot s
  /\ mCurrentBuffer (snd (nextBuffer outBuffer outFence s)) = mCurrentBuffer s.
Proof.
  intros Hhist Hacq.
  pose proof (calls_tracked history None (FramebufferSurface_new q hwc) eq_refl)
    as Htracked.
  rewrite Hhist in Htracked. cbn [fst snd] in Htracked.
  rewrite (nextBuffer_no_buffer s outBuffer outFence _ _ Hacq).
  unfold status_of, buffer_of, fence_of. cbn. auto 6.
Qed.

(** C3, atomicity on error.  An error of [acquireBufferLocked] other than
    [NO_BUFFER_AVAILABLE], and an error other than [STALE_BUFFER_SLOT] of
    the release of the previous slot, are returned as they are; and every
    call of [nextBuffer] that returns an error leaves [mCurrentBufferSlot],
    [mCurrentBuffer] and the caller's out-parameters as they were. *)
Theorem nextBuffer_error_is_atomic
  (s : Surface) outBuffer outFence err item q1 :
  ConsumerBase.acquireBuffer (base s) = (err, item, q1) ->
  (err <> NO_ERROR -> err <> BufferQueue.NO_BUFFER_AVAILABLE ->
     status_of (nextBuffer outBuffer outFence s) = err)
  /\ (forall rerr q2,
        err = NO_ERROR ->
        mCurrentBufferSlot s <> BufferQueue.INVALID_BUFFER_SLOT ->
        BufferQueue.mBuf item <> mCurrentBufferSlot s ->
        ConsumerBase.releaseBuffer (mCurrentBufferSlot s) EGL_NO_DISPLAY
          EGL_NO_SYNC_KHR q1 = (rerr, q2) ->
        rerr <> NO_ERROR -> rerr <> BufferQueue.STALE_BUFFER_SLOT ->
        status_of (nextBuffer outBuffer outFence s) = rerr)
  /\ (status_of (nextBuffer outBuffer outFence s) <> NO_ERROR ->
        mCurrentBufferSlot (snd (nextBuffer outBuffer outFence s))
          = mCurrentBufferSlot s
        /\ mCurrentBuffer (snd (nextBuffer outBuffer outFence s))
           = mCurrentBuffer s
        /\ buffer_of (nextBuffer outBuffer outFence s) = outBuffer
        /\ fence_of (nextBuffer outBuffer outFence s) = outFence).
Proof.
  intros Hacq. split; [ | split].
  - intros Herr Hnb.
    rewrite (nextBuffer_acquire_error s outBuffer outFence _ _ _ Hacq Hnb Herr).
    reflexivity.
  - intros rerr q2 -> Hvalid Hdiff Hrel Hrerr Hstale.
    rewrite (nextBuffer_release_error s outBuffer outFence _ _ _ _
               Hacq Hvalid Hdiff Hrel Hrerr Hstale).
    reflexivity.
  - apply nextBuffer_failure_frame.
Qed.

(** C4, stale tolerance.  When the release of the previous current slot
    answers [STALE_BUFFER_SLOT], [nextBuffer] still returns [NO_ERROR]:
    the current slot becomes the acquired item's slot, the current buffer is
    read from [mSlots] at that index (as the base class holds it after the
    release), and the item's fence is returned. *)
Theorem nextBuffer_tolerates_stale_release
  (s : Surface) outBuffer outFence item q1 q2 :
  ConsumerBase.acquireBuffer (base s) = (NO_ERROR, item, q1) ->
  mCurrentBufferSlot s <> BufferQueue.INVALID_BUFFER_SLOT ->
  BufferQueue.mBuf item <> mCurrentBufferSlot s ->
  ConsumerBase.releaseBuffer (mCurrentBufferSlot s) EGL_NO_DISPLAY
    EGL_NO_SYNC_KHR q1 = (BufferQueue.STALE_BUFFER_SLOT, q2) ->
  let in_slot :=
    ConsumerBase.mGraphicBuffer (ConsumerBase.slots q2 (BufferQueue.mBuf item)) in
  nextBuffer outBuffer outFence s
    = (NO_ERROR, in_slot, BufferQueue.mFence item,
       mkSurface q2 (BufferQueue.mBuf item) in_slot (mHwc s)
         ((trace s ++ [EAcquireBuffer NO_ERROR item])
            ++ [EReleaseBuffer (mCurrentBufferSlot s) EGL_NO_DISPLAY
                  EGL_NO_SYNC_KHR BufferQueue.STALE_BUFFER_SLOT])).
Proof.
  intros Hacq Hvalid Hdiff Hrel in_slot.
  exact (nextBuffer_released s outBuffer outFence _ _ _ _
           Hacq Hvalid Hdiff Hrel (or_intror eq_refl)).
Qed.

(** C5 as the code has it.  [freeBufferLocked] on the current slot resets
    [mCurrentBufferSlot] to [INVALID_BUFFER_SLOT] and keeps [mCurrentBuffer];
    a following [nextBuffer] for which the queue answers
    [NO_BUFFER_AVAILABLE] returns [NO_ERROR] with that kept handle (null only
    if the surface held none), assigns no fence, and leaves the slot
    invalid. *)
Theorem nextBuffer_after_free_returns_kept_buffer
  (s : Surface) slotIndex outBuffer outFence item q1 :
  slotIndex = mCurrentBufferSlot s ->
  ConsumerBase.acquireBuffer (ConsumerBase.freeBuffer slotIndex (base s))
    = (BufferQueue.NO_BUFFER_AVAILABLE, item, q1) ->
  let freed := snd (freeBufferLocked slotIndex s) in
  mCurrentBufferSlot freed = BufferQueue.INVALID_BUFFER_SLOT
  /\ mCurrentBuffer freed = mCurrentBuffer s
  /\ nextBuffer outBuffer outFence freed
     = (NO_ERROR, mCurrentBuffer s, outFence,
        mkSurface q1 BufferQueue.INVALID_BUFFER_SLOT (mCurrentBuffer s) (mHwc s)
          ((trace s ++ [EFreeBuffer slotIndex])
             ++ [EAcquireBuffer BufferQueue.NO_BUFFER_AVAILABLE item])).
Proof.
  intros Hcur Hacq freed. subst freed.
  assert (Hfree : snd (freeBufferLocked slotIndex s)
                  = mkSurface (ConsumerBase.freeBuffer slotIndex (base s))
                      BufferQueue.INVALID_BUFFER_SLOT (mCurrentBuffer s) (mHwc s)
                      (trace s ++ [EFreeBuffer slotIndex])).
  { run. rewrite <- Hcur, Z.eqb_refl. reflexivity. }
  rewrite Hfree. repeat split.
  exact (nextBuffer_no_buffer
           (mkSurface (ConsumerBase.freeBuffer slotIndex (base s))
              BufferQueue.INVALID_BUFFER_SLOT (mCurrentBuffer s) (mHwc s)
              (trace s ++ [EFreeBuffer slotIndex]))
           outBuffer outFence item q1 Hacq).
Qed.

(** C7.  [setUpdateRectangle] answers [INVALID_OPERATION], which is not
    [NO_ERROR], for every rectangle and in every state, and leaves the
    object (fields, base, composer, trace) as it was. *)
Theorem setUpdateRectangle_unsupported (s : Surface) (r : Rect) :
  setUpdateRectangle r s = (INVALID_OPERATION, s)
  /\ INVALID_OPERATION <> NO_ERROR.
Proof.
  split; [reflexivity | discriminate].
Qed.

(** C8.  [onFrameAvailable] calls [nextBuffer] with null out-parameters.
    When that call succeeds, exactly one [fbPost] is made, for display 0
    with the fence and buffer [nextBuffer] returned; when it fails, no
    [fbPost] is made, the composer is left as it was, and the only thing
    done after [nextBuffer] is the error log. *)
Theorem onFrameAvailable_posts_iff_latched
  (s : Surface) err buf fence (s1 : Surface) :
  nextBuffer None None s = (err, buf, fence, s1) ->
  (err = NO_ERROR ->
     forall perr h', HWComposer.post 0 fence buf (mHwc s) = (perr, h') ->
       filter is_post (trace (snd (onFrameAvailable s)))
         = filter is_post (trace s) ++ [EFbPost 0 fence buf perr]
       /\ mHwc (snd (onFrameAvailable s)) = h')
  /\ (err <> NO_ERROR ->
        filter is_post (trace (snd (onFrameAvailable s)))
          = filter is_post (trace s)
        /\ mHwc (snd (onFrameAvailable s)) = mHwc s
        /\ snd (onFrameAvailable s)
           = mkSurface (base s1) (mCurrentBufferSlot s1) (mCurrentBuffer s1)
               (mHwc s1)
               (trace s1
                  ++ [ELog "error latching nnext FramebufferSurface buffer: %s (%d)"
                        err])).
Proof.
  intros Hnext.
  destruct (nextBuffer_leaves_hwc s None None) as [Hhwc Hposts].
  rewrite Hnext in Hhwc, Hposts. cbn [snd] in Hhwc, Hposts.
  assert (Hstep : onFrameAvailable s
                  = onFrameAvailable_post (err, buf, fence) s1).
  { unfold onFrameAvailable. unfold bind at 1. rewrite Hnext. reflexivity. }
  rewrite Hstep. clear Hstep. split.
  - intros -> perr h' Hpost. run. cbn. rewrite Hhwc, Hpost. cbn.
    destruct (negb (perr =? NO_ERROR)); cbn;
      rewrite ?filter_app, Hposts; cbn; rewrite ?app_nil_r; auto.
  - intros Herr. run. apply Z.eqb_neq in Herr. rewrite Herr. cbn.
    rewrite filter_app, Hposts, Hhwc. cbn. rewrite app_nil_r. auto.
Qed.

(** C9.  [freeBufferLocked] on an index other than the tracked current slot
    leaves [mCurrentBufferSlot] and [mCurrentBuffer] as they were. *)
Theorem freeBufferLocked_other_slot_keeps_current (s : Surface) slotIndex :
  slotIndex <> mCurrentBufferSlot s ->
  mCurrentBufferSlot (snd (freeBufferLocked slotIndex s)) = mCurrentBufferSlot s
  /\ mCurrentBuffer (snd (freeBufferLocked slotIndex s)) = mCurrentBuffer s.
Proof.
  intros Hother. run. apply Z.eqb_neq in Hother. rewrite Hother. cbn. auto.
Qed.

(** C10.  [setReleaseFenceFd] with a negative descriptor returns [NO_ERROR]
    and does nothing: the object is unchanged, so no fence is built and no
    [addReleaseFence] reaches the queue (the trace is the same), whether or
    not there is a current slot. *)
Theorem setReleaseFenceFd_negative_is_noop (s : Surface) fenceFd :
  fenceFd < 0 ->
  setReleaseFenceFd fenceFd s = (NO_ERROR, s).
Proof.
  intros Hneg. unfold setReleaseFenceFd.
  destruct (Z.geb_spec fenceFd 0) as [Hge | _]; [lia | reflexivity].
Qed.

(** *** More on [nextBuffer]: which calls it makes, and when *)

Lemma skipn_exact {A : Type} (l r : list A) :
  skipn (List.length l) (l ++ r) = r.
Proof.
  induction l as [ | a l IH]; cbn; auto.
Qed.

Ltac issued :=
  unfold issued_by; cbn [snd trace]; rewrite <- ?app_assoc;
  rewrite ?skipn_exact; cbn [app].

(** X1, the first frame.  With no current slot, a successful acquire is
    latched without any release call: the acquire is the only call made, the
    item's slot becomes current, the buffer is read from [mSlots] at that
    index and returned with the item's fence. *)
Theorem nextBuffer_first_latch_skips_release
  (s : Surface) outBuffer outFence item q1 :
  ConsumerBase.acquireBuffer (base s) = (NO_ERROR, item, q1) ->
  mCurrentBufferSlot s = BufferQueue.INVALID_BUFFER_SLOT ->
  let in_slot :=
    ConsumerBase.mGraphicBuffer (ConsumerBase.slots q1 (BufferQueue.mBuf item)) in
  issued_by (nextBuffer outBuffer outFence) s = [EAcquireBuffer NO_ERROR item]
  /\ status_of (nextBuffer outBuffer outFence s) = NO_ERROR
  /\ buffer_of (nextBuffer outBuffer outFence s) = in_slot
  /\ fence_of (nextBuffer outBuffer outFence s) = BufferQueue.mFence item
  /\ mCurrentBufferSlot (snd (nextBuffer outBuffer outFence s))
     = BufferQueue.mBuf item
  /\ mCurrentBuffer (snd (nextBuffer outBuffer outFence s)) = in_slot.
Proof.
  intros Hacq Hnone in_slot. subst in_slot.
  unfold issued_by, status_of, buffer_of, fence_of.
  rewrite (nextBuffer_no_release s outBuffer outFence _ _ Hacq (or_introl Hnone)).
  cbn [fst snd trace mCurrentBufferSlot mCurrentBuffer].
  rewrite skipn_exact. auto 6.
Qed.

(** X2, the ordinary hand-over.  With a valid current slot, an acquired
    item for another slot and a release that answers [NO_ERROR], exactly two
    calls are made, in this order: the acquire, then one release of the
    previous slot with [EGL_NO_DISPLAY] and [EGL_NO_SYNC_KHR]; the item's
    slot then becomes current, with the buffer [mSlots] holds for it after
    the release. *)
Theorem nextBuffer_hand_over_releases_previous
  (s : Surface) outBuffer outFence item q1 q2 :
  ConsumerBase.acquireBuffer (base s) = (NO_ERROR, item, q1) ->
  mCurrentBufferSlot s <> BufferQueue.INVALID_BUFFER_SLOT ->
  BufferQueue.mBuf item <> mCurrentBufferSlot s ->
  ConsumerBase.releaseBuffer (mCurrentBufferSlot s) EGL_NO_DISPLAY
    EGL_NO_SYNC_KHR q1 = (NO_ERROR, q2) ->
  issued_by (nextBuffer outBuffer outFence) s
    = [EAcquireBuffer NO_ERROR item;
       EReleaseBuffer (mCurrentBufferSlot s) EGL_NO_DISPLAY EGL_NO_SYNC_KHR
         NO_ERROR]
  /\ status_of (nextBuffer outBuffer outFence s) = NO_ERROR
  /\ mCurrentBufferSlot (snd (nextBuffer outBuffer outFence s))
     = BufferQueue.mBuf item
  /\ mCurrentBuffer (snd (nextBuffer outBuffer outFence s))
     = ConsumerBase.mGraphicBuffer
         (ConsumerBase.slots q2 (BufferQueue.mBuf item))
  /\ base (snd (nextBuffer outBuffer outFence s)) = q2.
Proof.
  intros Hacq Hvalid Hdiff Hrel.
  unfold status_of, issued_by.
  rewrite (nextBuffer_released s outBuffer outFence _ _ _ _
             Hacq Hvalid Hdiff Hrel (or_introl eq_refl)).
  issued. cbn. auto 6.
Qed.

(** X3, what a successful latch leaves.  Whenever the acquire delivered an
    item and [nextBuffer] returns [NO_ERROR] (first frame, same slot,
    release accepted or stale alike), the item's slot is the current slot,
    the current buffer is what [mSlots] holds at that index in the state
    left behind, and the caller gets that buffer and the item's fence. *)
Theorem nextBuffer_success_latches_item
  (s : Surface) outBuffer outFence item q1 :
  ConsumerBase.acquireBuffer (base s) = (NO_ERROR, item, q1) ->
  status_of (nextBuffer outBuffer outFence s) = NO_ERROR ->
  mCurrentBufferSlot (snd (nextBuffer outBuffer outFence s))
    = BufferQueue.mBuf item
  /\ mCurrentBuffer (snd (nextBuffer outBuffer outFence s))
     = ConsumerBase.mGraphicBuffer
         (ConsumerBase.slots (base (snd (nextBuffer outBuffer outFence s)))
            (BufferQueue.mBuf item))
  /\ buffer_of (nextBuffer outBuffer outFence s)
     = mCurrentBuffer (snd (nextBuffer outBuffer outFence s))
  /\ fence_of (nextBuffer outBuffer outFence s) = BufferQueue.mFence item.
Proof.
  intros Hacq. unfold status_of, buffer_of, fence_of.
  destruct (Z.eq_dec (mCurrentBufferSlot s) BufferQueue.INVALID_BUFFER_SLOT)
    as [Hinv | Hinv].
  { rewrite (nextBuffer_no_release s outBuffer outFence _ _ Hacq (or_introl Hinv)).
    cbn. auto. }
  destruct (Z.eq_dec (BufferQueue.mBuf item) (mCurrentBufferSlot s))
    as [Hsame | Hsame].
  { rewrite (nextBuffer_no_release s outBuffer outFence _ _ Hacq (or_intror Hsame)).
    cbn. auto. }
  destruct (ConsumerBase.releaseBuffer (mCurrentBufferSlot s) EGL_NO_DISPLAY
              EGL_NO_SYNC_KHR q1) as [rerr q2] eqn:Hrel.
  destruct (Z.eq_dec rerr NO_ERROR) as [Hrok | Hrok].
  { rewrite (nextBuffer_released s outBuffer outFence _ _ _ _
               Hacq Hinv Hsame Hrel (or_introl Hrok)).
    cbn. auto. }
  destruct (Z.eq_dec rerr BufferQueue.STALE_BUFFER_SLOT) as [Hstale | Hstale].
  { rewrite (nextBuffer_released s outBuffer outFence _ _ _ _
               Hacq Hinv Hsame Hrel (or_intror Hstale)).
    cbn. auto. }
  rewrite (nextBuffer_release_error s outBuffer outFence _ _ _ _
             Hacq Hinv Hsame Hrel Hrok Hstale).
  cbn. intros Habs. contradiction.
Qed.


(** What [nextBuffer] adds to the trace: acquires, releases and logs. *)
Lemma nextBuffer_issues (s : Surface) outBuffer outFence :
  trace (snd (nextBuffer outBuffer outFence s))
    = trace s ++ issued_by (nextBuffer outBuffer outFence) s
  /\ forallb (fun e => is_acquire e || is_release e || is_log e)
       (issued_by (nextBuffer outBuffer outFence) s) = true.
Proof.
  unfold issued_by.
  nextBuffer_cases s outBuffer outFence;
    cbn [snd trace]; rewrite <- ?app_assoc; rewrite skipn_exact; cbn; auto.
Qed.


(** *** More on [onFrameAvailable] *)

(** X6, nothing new to show.  When the queue answers
    [NO_BUFFER_AVAILABLE], [onFrameAvailable] still posts: one [fbPost] for
    display 0 with the tracked current buffer (null if nothing was ever
    latched) and a null fence.  No release is made and the current slot and
    buffer stay as they were. *)
Theorem onFrameAvailable_reposts_current (s : Surface) item q1 perr h' :
  ConsumerBase.acquireBuffer (base s)
    = (BufferQueue.NO_BUFFER_AVAILABLE, item, q1) ->
  HWComposer.post 0 None (mCurrentBuffer s) (mHwc s) = (perr, h') ->
  filter is_post (issued_by onFrameAvailable s)
    = [EFbPost 0 None (mCurrentBuffer s) perr]
  /\ filter is_release (issued_by onFrameAvailable s) = []
  /\ mCurrentBufferSlot (snd (onFrameAvailable s)) = mCurrentBufferSlot s
  /\ mCurrentBuffer (snd (onFrameAvailable s)) = mCurrentBuffer s.
Proof.
  intros Hacq Hpost.
  assert (Hstep : onFrameAvailable s
                  = onFrameAvailable_post
                      (NO_ERROR, mCurrentBuffer s, None)
                      (mkSurface q1 (mCurrentBufferSlot s) (mCurrentBuffer s)
                         (mHwc s)
                         (trace s
                            ++ [EAcquireBuffer BufferQueue.NO_BUFFER_AVAILABLE
                                  item]))).
  { unfold onFrameAvailable. unfold bind at 1.
    rewrite (nextBuffer_no_buffer s None None _ _ Hacq). reflexivity. }
  unfold issued_by. rewrite Hstep. run. cbn. rewrite Hpost. cbn.
  destruct (negb (perr =? NO_ERROR)); cbn;
    rewrite <- ?app_assoc; rewrite skipn_exact; cbn; auto.
Qed.

(** X7, a refused post.  When [nextBuffer] succeeded and [fbPost] answers
    an error, the error is logged and nothing is undone: the surface keeps
    the slot and buffer [nextBuffer] latched, and the queue is as
    [nextBuffer] left it. *)
Theorem onFrameAvailable_post_failure_keeps_latch
  (s : Surface) buf fence (s1 : Surface) perr h' :
  nextBuffer None None s = (NO_ERROR, buf, fence, s1) ->
  HWComposer.post 0 fence buf (mHwc s) = (perr, h') ->
  perr <> NO_ERROR ->
  snd (onFrameAvailable s)
    = mkSurface (base s1) (mCurrentBufferSlot s1) (mCurrentBuffer s1) h'
        (trace s1
           ++ [EFbPost 0 fence buf perr;
               ELog "error posting framebuffer: %d" perr]).
Proof.
  intros Hnext Hpost Hperr.
  destruct (nextBuffer_leaves_hwc s None None) as [Hhwc _].
  rewrite Hnext in Hhwc. cbn [snd] in Hhwc.
  unfold onFrameAvailable. unfold bind at 1. rewrite Hnext.
  run. cbn. rewrite Hhwc, Hpost. cbn.
  apply Z.eqb_neq in Hperr. rewrite Hperr. cbn.
  rewrite <- app_assoc. reflexivity.
Qed.

(** X8, what gets posted.  [onFrameAvailable] leaves the current slot, the
    current buffer and the queue exactly as its [nextBuffer] call leaves
    them; and any [fbPost] it makes is for display 0, follows a successful
    [nextBuffer], and carries the fence [nextBuffer] returned and the buffer
    that is the current buffer when [onFrameAvailable] returns. *)
Theorem onFrameAvailable_posts_current_buffer (s : Surface) :
  mCurrentBufferSlot (snd (onFrameAvailable s))
    = mCurrentBufferSlot (snd (nextBuffer None None s))
  /\ mCurrentBuffer (snd (onFrameAvailable s))
     = mCurrentBuffer (snd (nextBuffer None None s))
  /\ base (snd (onFrameAvailable s)) = base (snd (nextBuffer None None s))
  /\ (forall id fence buf err,
        In (EFbPost id fence buf err) (issued_by onFrameAvailable s) ->
        id = 0
        /\ status_of (nextBuffer None None s) = NO_ERROR
        /\ fence = fence_of (nextBuffer None None s)
        /\ buf = mCurrentBuffer (snd (onFrameAvailable s))).
Proof.
  pose proof (nextBuffer_issues s None None) as [Htrace Hkinds].
  pose proof (nextBuffer_success_tracked s None None) as Htracked.
  unfold issued_by, status_of, fence_of, buffer_of in *.
  unfold onFrameAvailable. unfold bind.
  destruct (nextBuffer None None s) as [[[err buf] fence] s1].
  cbn [fst snd] in *. run.
  destruct (Z.eqb_spec err NO_ERROR) as [-> | Herr]; cbn.
  - destruct (HWComposer.post 0 fence buf (mHwc s1)) as [perr h'']. cbn.
    assert (Hin : forall id f b e rest,
               In (EFbPost id f b e)
                  (skipn (List.length (trace s))
                     (trace s1 ++ EFbPost 0 fence buf perr :: rest)) ->
               filter is_post rest = [] ->
               id = 0 /\ NO_ERROR = NO_ERROR /\ f = fence
               /\ b = mCurrentBuffer s1).
    { intros id f b e rest Hin Hrest. rewrite Htrace in Hin.
      rewrite <- app_assoc, skipn_exact in Hin.
      apply in_app_or in Hin. destruct Hin as [Hin | [Hin | Hin]].
      - rewrite forallb_forall in Hkinds. apply Hkinds in Hin. discriminate.
      - injection Hin as <- <- <- _. rewrite <- Htracked by reflexivity. auto.
      - assert (Hp : In (EFbPost id f b e) (filter is_post rest))
          by (apply filter_In; auto).
        rewrite Hrest in Hp. contradiction. }
    destruct (negb (perr =? NO_ERROR)); cbn;
      (split; [reflexivity | split; [reflexivity | split; [reflexivity | ]]]);
      intros id f b e Hpost.
    + rewrite <- app_assoc in Hpost. cbn [app] in Hpost.
      apply (Hin id f b e _ Hpost). reflexivity.
    + apply (Hin id f b e [] Hpost). reflexivity.
  - (split; [reflexivity | split; [reflexivity | split; [reflexivity | ]]]).
    intros id f b e Hpost. exfalso.
    rewrite Htrace, <- app_assoc, skipn_exact in Hpost.
    apply in_app_or in Hpost. destruct Hpost as [Hin | [Hin | []]].
    + rewrite forallb_forall in Hkinds. apply Hkinds in Hin. discriminate.
    + discriminate Hin.
Qed.

(** *** More on [freeBufferLocked] and [setReleaseFenceFd] *)

Lemma freeBufferLocked_run slotIndex (s : Surface) :
  snd (freeBufferLocked slotIndex s)
  = mkSurface (ConsumerBase.freeBuffer slotIndex (base s))
      (if slotIndex =? mCurrentBufferSlot s
       then BufferQueue.INVALID_BUFFER_SLOT else mCurrentBufferSlot s)
      (mCurrentBuffer s) (mHwc s) (trace s ++ [EFreeBuffer slotIndex]).
Proof.
  run. destruct (slotIndex =? mCurrentBufferSlot s); reflexivity.
Qed.

Lemma setReleaseFenceFd_run fenceFd (s : Surface) :
  snd (setReleaseFenceFd fenceFd s)
  = if fenceFd >=? 0 then
      if negb (mCurrentBufferSlot s =? BufferQueue.INVALID_BUFFER_SLOT) then
        let '(err, q') :=
          ConsumerBase.addFence (mCurrentBufferSlot s) (Some (mkFence fenceFd))
            (base s) in
        mkSurface q' (mCurrentBufferSlot s) (mCurrentBuffer s) (mHwc s)
          (trace s
             ++ ENewFence fenceFd
                :: EAddReleaseFence (mCurrentBufferSlot s)
                     (Some (mkFence fenceFd)) err
                :: (if negb (err =? 0)
                    then [ELog "setReleaseFenceFd: failed to add the fence: %s (%d)"
                            err]
                    else []))
      else
        mkSurface (base s) (mCurrentBufferSlot s) (mCurrentBuffer s) (mHwc s)
          (trace s ++ [ENewFence fenceFd])
    else s.
Proof.
  run. destruct (fenceFd >=? 0); cbn; [ | reflexivity].
  destruct (negb (mCurrentBufferSlot s =? BufferQueue.INVALID_BUFFER_SLOT));
    cbn; [ | reflexivity].
  destruct (ConsumerBase.addFence _ _ _) as [err q']. cbn.
  destruct (negb (err =? 0)); cbn; rewrite <- ?app_assoc; reflexivity.
Qed.

(** A release made by [nextBuffer] names the slot current before the call. *)
Lemma nextBuffer_release_target (s : Surface) outBuffer outFence slot dpy sync err :
  In (EReleaseBuffer slot dpy sync err) (issued_by (nextBuffer outBuffer outFence) s) ->
  slot = mCurrentBufferSlot s /\ slot <> BufferQueue.INVALID_BUFFER_SLOT.
Proof.
  unfold issued_by.
  nextBuffer_cases s outBuffer outFence;
    cbn [snd trace]; rewrite <- ?app_assoc; rewrite skipn_exact; cbn;
    intros Hin;
    repeat match type of Hin with
           | _ \/ _ => destruct Hin as [Hin | Hin]
           | False => contradiction
           | EAcquireBuffer _ _ = _ => discriminate Hin
           | ELog _ _ = _ => discriminate Hin
           end;
    injection Hin as ? ? ? ?; subst; auto.
Qed.

(** X9, a latch after the current slot was freed.  Once
    [freeBufferLocked] has been called on the current slot, the next
    successful acquire is latched without any release call, whichever slot
    it delivers, the freed one included. *)
Theorem nextBuffer_after_free_skips_release
  (s : Surface) outBuffer outFence item q1 :
  ConsumerBase.acquireBuffer
    (ConsumerBase.freeBuffer (mCurrentBufferSlot s) (base s))
    = (NO_ERROR, item, q1) ->
  let freed := snd (freeBufferLocked (mCurrentBufferSlot s) s) in
  issued_by (nextBuffer outBuffer outFence) freed = [EAcquireBuffer NO_ERROR item]
  /\ status_of (nextBuffer outBuffer outFence freed) = NO_ERROR
  /\ mCurrentBufferSlot (snd (nextBuffer outBuffer outFence freed))
     = BufferQueue.mBuf item
  /\ mCurrentBuffer (snd (nextBuffer outBuffer outFence freed))
     = ConsumerBase.mGraphicBuffer
         (ConsumerBase.slots q1 (BufferQueue.mBuf item)).
Proof.
  intros Hacq freed. subst freed.
  rewrite freeBufferLocked_run, Z.eqb_refl.
  match goal with
  | |- context [nextBuffer _ _ ?s1] => set (freed := s1)
  end.
  unfold issued_by, status_of.
  rewrite (nextBuffer_no_release freed outBuffer outFence item q1 Hacq
             (or_introl eq_refl)).
  cbn [fst snd trace mCurrentBufferSlot mCurrentBuffer].
  rewrite skipn_exact. auto.
Qed.

(** X10, a freed slot is let go.  After [freeBufferLocked] on an index
    other than [INVALID_BUFFER_SLOT], that index is not the current slot;
    so a following [nextBuffer] makes no release call for it and a following
    [setReleaseFenceFd] attaches no fence to it. *)
Theorem freeBufferLocked_slot_not_used_after
  (s : Surface) slotIndex outBuffer outFence fenceFd :
  slotIndex <> BufferQueue.INVALID_BUFFER_SLOT ->
  let freed := snd (freeBufferLocked slotIndex s) in
  mCurrentBufferSlot freed <> slotIndex
  /\ (forall dpy sync err,
        ~ In (EReleaseBuffer slotIndex dpy sync err)
             (issued_by (nextBuffer outBuffer outFence) freed))
  /\ (forall fence err,
        ~ In (EAddReleaseFence slotIndex fence err)
             (issued_by (setReleaseFenceFd fenceFd) freed)).
Proof.
  intros Hvalid freed.
  assert (Hnot : mCurrentBufferSlot freed <> slotIndex).
  { subst freed. rewrite freeBufferLocked_run. cbn.
    destruct (Z.eqb_spec slotIndex (mCurrentBufferSlot s)); congruence. }
  split; [exact Hnot | split].
  - intros dpy sync err Hin.
    apply nextBuffer_release_target in Hin. destruct Hin as [Hcur _].
    congruence.
  - intros fence err. unfold issued_by. rewrite setReleaseFenceFd_run.
    destruct (fenceFd >=? 0).
    + destruct (Z.eqb_spec (mCurrentBufferSlot freed)
                  BufferQueue.INVALID_BUFFER_SLOT) as [Hinv | Hinv]; cbn.
      * rewrite skipn_exact. intros [Hin | []]. discriminate Hin.
      * destruct (ConsumerBase.addFence _ _ _) as [aerr q']. cbn.
        rewrite skipn_exact. intros [Hin | [Hin | Hin]].
        -- discriminate Hin.
        -- injection Hin as Hslot _ _. congruence.
        -- destruct (negb (aerr =? 0)); cbn in Hin;
             [destruct Hin as [Hin | []]; discriminate Hin | contradiction].
    + replace (trace freed) with (trace freed ++ []) at 2
        by apply app_nil_r.
      rewrite skipn_exact. intros [].
Qed.

(** X11, what [setReleaseFenceFd] never does.  Whatever the descriptor, the
    state and the queue's answer, [setReleaseFenceFd] returns [NO_ERROR],
    leaves the current slot, the current buffer and the composer as they
    were, and makes no call other than building a fence, adding a release
    fence and logging. *)
Theorem setReleaseFenceFd_frame (s : Surface) fenceFd :
  fst (setReleaseFenceFd fenceFd s) = NO_ERROR
  /\ mCurrentBufferSlot (snd (setReleaseFenceFd fenceFd s)) = mCurrentBufferSlot s
  /\ mCurrentBuffer (snd (setReleaseFenceFd fenceFd s)) = mCurrentBuffer s
  /\ mHwc (snd (setReleaseFenceFd fenceFd s)) = mHwc s
  /\ forallb (fun e => is_new_fence e || is_add_release_fence e || is_log e)
       (issued_by (setReleaseFenceFd fenceFd) s) = true.
Proof.
  split; [apply setReleaseFenceFd_returns_NO_ERROR | ].
  unfold issued_by. rewrite setReleaseFenceFd_run.
  destruct (fenceFd >=? 0).
  - destruct (negb (mCurrentBufferSlot s =? BufferQueue.INVALID_BUFFER_SLOT));
      cbn.
    + destruct (ConsumerBase.addFence _ _ _) as [aerr q']. cbn.
      rewrite skipn_exact. destruct (negb (aerr =? 0)); cbn; auto.
    + rewrite skipn_exact. cbn. auto.
  - replace (trace s) with (trace s ++ []) at 2 by apply app_nil_r.
    rewrite skipn_exact. cbn. auto.
Qed.

(** X12, attaching a release fence.  With a descriptor that is not negative
    and a current slot, [setReleaseFenceFd] builds the fence from the
    descriptor and calls [addReleaseFence] once, on the current slot and with
    that fence; the queue is left as that call left it, and an error is
    logged. *)
Theorem setReleaseFenceFd_attaches_to_current (s : Surface) fenceFd err q' :
  0 <= fenceFd ->
  mCurrentBufferSlot s <> BufferQueue.INVALID_BUFFER_SLOT ->
  ConsumerBase.addFence (mCurrentBufferSlot s) (Some (mkFence fenceFd)) (base s)
    = (err, q') ->
  issued_by (setReleaseFenceFd fenceFd) s
    = ENewFence fenceFd
      :: EAddReleaseFence (mCurrentBufferSlot s) (Some (mkFence fenceFd)) err
      :: (if err =? 0 then []
          else [ELog "setReleaseFenceFd: failed to add the fence: %s (%d)" err])
  /\ base (snd (setReleaseFenceFd fenceFd s)) = q'.
Proof.
  intros Hfd Hvalid Hadd. unfold issued_by. rewrite setReleaseFenceFd_run.
  destruct (Z.geb_spec fenceFd 0) as [_ | Hneg]; [ | lia].
  apply Z.eqb_neq in Hvalid. rewrite Hvalid. cbn. rewrite Hadd. cbn.
  rewrite skipn_exact. destruct (err =? 0); cbn; auto.
Qed.

(** X13, a fence with nowhere to go.  With a descriptor that is not
    negative and no current slot, [setReleaseFenceFd] still builds the fence,
    which takes over the descriptor, and then attaches it to nothing: no
    call reaches the queue and the object's fields are unchanged. *)
Theorem setReleaseFenceFd_without_slot_consumes_fd (s : Surface) fenceFd :
  0 <= fenceFd ->
  mCurrentBufferSlot s = BufferQueue.INVALID_BUFFER_SLOT ->
  setReleaseFenceFd fenceFd s
  = (NO_ERROR,
     mkSurface (base s) (mCurrentBufferSlot s) (mCurrentBuffer s) (mHwc s)
       (trace s ++ [ENewFence fenceFd])).
Proof.
  intros Hfd Hnone.
  pose proof (setReleaseFenceFd_returns_NO_ERROR fenceFd s) as Hret.
  pose proof (setReleaseFenceFd_run fenceFd s) as Hrun.
  destruct (setReleaseFenceFd fenceFd s) as [ret s']. cbn in Hret, Hrun.
  subst ret s'.
  destruct (Z.geb_spec fenceFd 0) as [_ | Hneg]; [ | lia].
  rewrite Hnone. reflexivity.
Qed.

(** *** Invariants of whole histories *)

Lemma delivered_app (tr1 tr2 : list (Effect GraphicBuffer)) : forall seen,
  delivered seen (tr1 ++ tr2) = delivered (delivered seen tr1) tr2.
Proof.
  induction tr1 as [ | e tr1 IH]; intros seen; cbn; [reflexivity | ].
  destruct e; apply IH.
Qed.

Lemma well_targeted_app (tr1 tr2 : list (Effect GraphicBuffer)) : forall seen,
  well_targeted seen (tr1 ++ tr2)
  = well_targeted seen tr1 && well_targeted (delivered seen tr1) tr2.
Proof.
  induction tr1 as [ | e tr1 IH]; intros seen; cbn; [reflexivity | ].
  destruct e; rewrite ?IH, ?andb_assoc; reflexivity.
Qed.

Lemma slot_in_delivered (tr : list (Effect GraphicBuffer)) : forall seen slot,
  slot_in slot seen = true -> slot_in slot (delivered seen tr) = true.
Proof.
  induction tr as [ | e tr IH]; intros seen slot Hin; cbn; [assumption | ].
  destruct e; try (apply IH; assumption).
  apply IH. destruct (err =? NO_ERROR); [ | assumption].
  unfold slot_in in *. cbn. rewrite Hin. apply orb_true_r.
Qed.

(** How the invariant passes from [s] to [s'] when the trace grew by [new]. *)
Lemma tracks_delivered_step (s s' : Surface) new :
  trace s' = trace s ++ new ->
  tracks_delivered s = true ->
  well_targeted (delivered [] (trace s)) new = true ->
  mCurrentBufferSlot s' = BufferQueue.INVALID_BUFFER_SLOT
  \/ mCurrentBufferSlot s' = mCurrentBufferSlot s
  \/ slot_in (mCurrentBufferSlot s') (delivered (delivered [] (trace s)) new)
     = true ->
  tracks_delivered s' = true.
Proof.
  unfold tracks_delivered. intros Htrace Hinv Hnew Hslot.
  apply andb_prop in Hinv. destruct Hinv as [Hwt Hcur].
  rewrite Htrace, well_targeted_app, delivered_app, Hwt, Hnew. cbn.
  destruct Hslot as [Hnone | [Hsame | Hin]].
  - rewrite Hnone. reflexivity.
  - rewrite Hsame. apply orb_prop in Hcur. destruct Hcur as [Hc | Hc].
    + rewrite Hc. reflexivity.
    + rewrite (slot_in_delivered _ _ _ Hc). apply orb_true_r.
  - rewrite Hin. apply orb_true_r.
Qed.

(** A valid current slot of a state that keeps the invariant was delivered. *)
Lemma tracks_delivered_current (s : Surface) :
  tracks_delivered s = true ->
  mCurrentBufferSlot s <> BufferQueue.INVALID_BUFFER_SLOT ->
  slot_in (mCurrentBufferSlot s) (delivered [] (trace s)) = true.
Proof.
  unfold tracks_delivered. intros Hinv Hvalid.
  apply andb_prop in Hinv. destruct Hinv as [_ Hcur].
  apply orb_prop in Hcur. destruct Hcur as [Hc | Hc]; [ | assumption].
  apply Z.eqb_eq in Hc. contradiction.
Qed.

Lemma nextBuffer_tracks_delivered (s : Surface) outBuffer outFence :
  tracks_delivered s = true ->
  tracks_delivered (snd (nextBuffer outBuffer outFence s)) = true.
Proof.
  intros Hinv.
  pose proof (tracks_delivered_current s Hinv) as Hcur.
  nextBuffer_cases s outBuffer outFence; cbn [snd].
  - eapply tracks_delivered_step;
      [cbn [trace]; reflexivity | assumption | reflexivity | cbn; auto].
  - eapply tracks_delivered_step;
      [cbn [trace]; reflexivity | assumption | reflexivity | ].
    right. right. cbn. unfold slot_in. cbn. rewrite Z.eqb_refl. reflexivity.
  - eapply tracks_delivered_step;
      [cbn [trace]; reflexivity | assumption | reflexivity | ].
    right. right. cbn. unfold slot_in. cbn. rewrite Z.eqb_refl. reflexivity.
  - eapply tracks_delivered_step;
      [cbn [trace]; rewrite <- app_assoc; reflexivity | assumption | | ].
    + cbn. unfold slot_in in *. cbn. rewrite (Hcur Hinv0), orb_true_r.
      apply Z.eqb_neq in Hinv0. rewrite Hinv0. reflexivity.
    + right. right. cbn. unfold slot_in. cbn. rewrite Z.eqb_refl. reflexivity.
  - eapply tracks_delivered_step;
      [cbn [trace]; rewrite <- app_assoc; reflexivity | assumption | | ].
    + cbn. unfold slot_in in *. cbn. rewrite (Hcur Hinv0), orb_true_r.
      apply Z.eqb_neq in Hinv0. rewrite Hinv0. reflexivity.
    + right. right. cbn. unfold slot_in. cbn. rewrite Z.eqb_refl. reflexivity.
  - eapply tracks_delivered_step;
      [cbn [trace]; rewrite <- !app_assoc; reflexivity | assumption | | ].
    + cbn. unfold slot_in in *. cbn. rewrite (Hcur Hinv0), orb_true_r.
      apply Z.eqb_neq in Hinv0. rewrite Hinv0. reflexivity.
    + cbn. auto.
  - eapply tracks_delivered_step;
      [cbn [trace]; rewrite <- app_assoc; reflexivity | assumption | | ].
    + reflexivity.
    + cbn. auto.
Qed.

Lemma onFrameAvailable_post_tracks_delivered r (s : Surface) :
  tracks_delivered s = true ->
  tracks_delivered (snd (onFrameAvailable_post r s)) = true.
Proof.
  intros Hinv. destruct r as [[err buf] fence]. run.
  destruct (negb (err =? NO_ERROR)); cbn.
  - eapply tracks_delivered_step;
      [cbn [trace]; reflexivity | assumption | reflexivity | cbn; auto].
  - destruct (HWComposer.post 0 fence buf (mHwc s)) as [perr h']. cbn.
    destruct (negb (perr =? NO_ERROR)); cbn;
      (eapply tracks_delivered_step;
       [cbn [trace]; rewrite <- ?app_assoc; reflexivity | assumption
       | reflexivity | cbn; auto]).
Qed.

Lemma call_tracks_delivered c last (s : Surface) :
  tracks_delivered s = true ->
  tracks_delivered (snd (call c last s)) = true.
Proof.
  intros Hinv.
  destruct c as [outBuffer outFence | | slotIndex | fenceFd | r | | f];
    cbn [call]; unfold bind, ret.
  - pose proof (nextBuffer_tracks_delivered s outBuffer outFence Hinv) as Hnext.
    destruct (nextBuffer outBuffer outFence s) as [res s']. exact Hnext.
  - pose proof (nextBuffer_tracks_delivered s None None Hinv) as Hnext.
    destruct (nextBuffer None None s) as [res s']. cbn [snd] in Hnext.
    pose proof (onFrameAvailable_post_tracks_delivered res s' Hnext) as Hpost.
    destruct (onFrameAvailable_post res s') as [[] s'']. exact Hpost.
  - pose proof (freeBufferLocked_run slotIndex s) as Hrun.
    destruct (freeBufferLocked slotIndex s) as [[] s']. cbn [snd] in *.
    subst s'.
    eapply tracks_delivered_step;
      [cbn [trace]; reflexivity | assumption | reflexivity | ].
    cbn. destruct (slotIndex =? mCurrentBufferSlot s); auto.
  - pose proof (setReleaseFenceFd_run fenceFd s) as Hrun.
    destruct (setReleaseFenceFd fenceFd s) as [ret s']. cbn [snd] in *.
    subst s'. destruct (fenceFd >=? 0); [ | assumption].
    destruct (Z.eqb_spec (mCurrentBufferSlot s) BufferQueue.INVALID_BUFFER_SLOT)
      as [Hnone | Hvalid]; cbn.
    + eapply tracks_delivered_step;
        [cbn [trace]; reflexivity | assumption | reflexivity | cbn; auto].
    + destruct (ConsumerBase.addFence _ _ _) as [aerr q'].
      eapply tracks_delivered_step;
        [cbn [trace]; reflexivity | assumption | | cbn; auto].
      cbn. rewrite (tracks_delivered_current s Hinv Hvalid).
      apply Z.eqb_neq in Hvalid. rewrite Hvalid.
      destruct (negb (aerr =? 0)); reflexivity.
  - cbn. assumption.
  - run. destruct (HWComposer.compositionComplete (mHwc s)) as [err h']. cbn.
    eapply tracks_delivered_step;
      [cbn [trace]; reflexivity | assumption | reflexivity | cbn; auto].
  - run. eapply tracks_delivered_step with (new := []);
      [cbn [trace]; symmetry; apply app_nil_r | assumption | reflexivity
      | cbn; auto].
Qed.

Lemma calls_tracks_delivered cs : forall last (s : Surface),
  tracks_delivered s = true ->
  tracks_delivered (snd (calls cs last s)) = true.
Proof.
  induction cs as [ | c cs IH]; intros last s Hinv; cbn [calls].
  - exact Hinv.
  - unfold bind. pose proof (call_tracks_delivered c last s Hinv) as Hstep.
    destruct (call c last s) as [last' s']. apply IH. exact Hstep.
Qed.

(** X14, only delivered slots are handed back.  After any history of calls
    on a freshly constructed surface, interleaved with any activity of the
    queue: every release and every added release fence in the trace names a
    slot that a successful acquire had delivered before, never
    [INVALID_BUFFER_SLOT]; and the current slot is [INVALID_BUFFER_SLOT] or
    a slot so delivered. *)
Theorem history_tracks_delivered
  (q : Q) (hwc : H) (history : list (Call GraphicBuffer Q)) :
  tracks_delivered (snd (calls history None (FramebufferSurface_new q hwc)))
  = true.
Proof.
  apply calls_tracks_delivered. reflexivity.
Qed.

Lemma nextBuffer_counts (s : Surface) outBuffer outFence :
  List.length (filter is_acquire (trace (snd (nextBuffer outBuffer outFence s))))
  = S (List.length (filter is_acquire (trace s)))
  /\ List.length (filter is_post (trace (snd (nextBuffer outBuffer outFence s))))
     = List.length (filter is_post (trace s)).
Proof.
  nextBuffer_cases s outBuffer outFence; cbn [snd trace];
    rewrite !filter_app, !length_app; cbn; lia.
Qed.

Lemma call_counts c last (s : Surface) :
  List.length (filter is_acquire (trace (snd (call c last s))))
  = (List.length (filter is_acquire (trace s))
     + (if is_latch c then 1 else 0))%nat
  /\ (List.length (filter is_post (trace (snd (call c last s))))
      <= List.length (filter is_post (trace s))
         + (if is_frame c then 1 else 0))%nat.
Proof.
  destruct c as [outBuffer outFence | | slotIndex | fenceFd | r | | f];
    cbn [call is_latch is_frame]; unfold bind, ret.
  - pose proof (nextBuffer_counts s outBuffer outFence) as [Ha Hp].
    destruct (nextBuffer outBuffer outFence s) as [res s']. cbn [snd] in *.
    lia.
  - pose proof (nextBuffer_counts s None None) as [Ha Hp].
    destruct (nextBuffer None None s) as [[[err buf] fence] s'].
    cbn [snd] in *. run.
    destruct (negb (err =? NO_ERROR)); cbn.
    + rewrite !filter_app, !length_app. cbn. lia.
    + destruct (HWComposer.post 0 fence buf (mHwc s')) as [perr h']. cbn.
      destruct (negb (perr =? NO_ERROR)); cbn;
        rewrite !filter_app, !length_app; cbn; lia.
  - pose proof (freeBufferLocked_run slotIndex s) as Hrun.
    destruct (freeBufferLocked slotIndex s) as [[] s']. cbn [snd] in *.
    subst s'. cbn [trace].
    rewrite !filter_app, !length_app. cbn. lia.
  - pose proof (setReleaseFenceFd_run fenceFd s) as Hrun.
    destruct (setReleaseFenceFd fenceFd s) as [ret s']. cbn [snd] in *.
    subst s'.
    destruct (fenceFd >=? 0); [ | lia].
    destruct (negb (mCurrentBufferSlot s =? BufferQueue.INVALID_BUFFER_SLOT)).
    + destruct (ConsumerBase.addFence _ _ _) as [aerr q']. cbn [trace].
      rewrite !filter_app, !length_app.
      destruct (negb (aerr =? 0)); cbn; lia.
    + cbn [trace]. rewrite !filter_app, !length_app. cbn. lia.
  - cbn. lia.
  - run. destruct (HWComposer.compositionComplete (mHwc s)) as [err h']. cbn.
    rewrite !filter_app, !length_app. cbn. lia.
  - cbn. lia.
Qed.

(** X15, one acquire per latch, no post without a frame.  Over any history
    of calls from any state, the surface asks the queue for a buffer exactly
    once per call that runs [nextBuffer] (directly or through
    [onFrameAvailable]), and posts at most once per [onFrameAvailable];
    [freeBufferLocked], [setReleaseFenceFd], [setUpdateRectangle] and
    [compositionComplete] neither acquire nor post. *)
Theorem history_acquires_and_posts
  (history : list (Call GraphicBuffer Q)) : forall last (s : Surface),
  List.length (filter is_acquire (trace (snd (calls history last s))))
  = (List.length (filter is_acquire (trace s))
     + List.length (filter is_latch history))%nat
  /\ (List.length (filter is_post (trace (snd (calls history last s))))
      <= List.length (filter is_post (trace s))
         + List.length (filter is_frame history))%nat.
Proof.
  induction history as [ | c cs IH]; intros last s; cbn [calls filter].
  - cbn. lia.
  - unfold bind. pose proof (call_counts c last s) as [Ha Hp].
    destruct (call c last s) as [last' s']. cbn [snd] in Ha, Hp.
    destruct (IH last' s') as [IHa IHp].
    destruct (is_latch c), (is_frame c); cbn [List.length]; lia.
Qed.

End Properties.

(** ** The properties on the test doubles *)

Section Concrete.

Import Fake.

(** The scenario of the three-slot pool: the current slot goes 0, 1, 1, 0;
    slot 0 then slot 1 are released; the third post repeats buffer 11
    without a fence; the last one shows the buffer newly stored in slot 0. *)
Example scenario_three_slots :
  let s := snd (calls [COnFrameAvailable; COnFrameAvailable; COnFrameAvailable;
                       COnFrameAvailable] None scenario) in
  mCurrentBufferSlot s = 0
  /\ mCurrentBuffer s = Some 12
  /\ filter is_release (trace s)
     = [EReleaseBuffer 0 EGL_NO_DISPLAY EGL_NO_SYNC_KHR NO_ERROR;
        EReleaseBuffer 1 EGL_NO_DISPLAY EGL_NO_SYNC_KHR NO_ERROR]
  /\ posted (mHwc s)
     = [(Some (mkFence 3), Some 10); (Some (mkFence 4), Some 11);
        (None, Some 11); (Some (mkFence 5), Some 12)].
Proof.
  vm_compute. repeat split.
Qed.

Lemma nextBuffer_same_slot_skips_release_witness :
  nextBuffer None None
    (showing0_with [(NO_ERROR, item 0 101 7)] NO_ERROR NO_ERROR)
  = (NO_ERROR, Some 101, Some (mkFence 7),
     mkSurface (mkQueue [] NO_ERROR NO_ERROR
                  [ConsumerBase.mkSlot (Some 101) (Some (mkFence 7));
                   no_slot; no_slot])
       0 (Some 101) hwc0 [EAcquireBuffer NO_ERROR (item 0 101 7)])
  /\ filter is_release
       (trace (snd (nextBuffer None None
          (showing0_with [(NO_ERROR, item 0 101 7)] NO_ERROR NO_ERROR))))
     = [].
Proof.
  refine (nextBuffer_same_slot_skips_release
           (showing0_with [(NO_ERROR, item 0 101 7)] NO_ERROR NO_ERROR)
           None None (item 0 101 7)
           (mkQueue [] NO_ERROR NO_ERROR
              [ConsumerBase.mkSlot (Some 101) (Some (mkFence 7));
               no_slot; no_slot])
           0 _ _ _ _).
  - reflexivity.
  - reflexivity.
  - vm_compute. discriminate.
  - reflexivity.
Defined.

Lemma nextBuffer_no_buffer_returns_last_success_witness :
  let s := snd (calls two_latches None two_frames) in
  status_of (nextBuffer None None s) = NO_ERROR
  /\ buffer_of (nextBuffer None None s) = Some 11
  /\ Some 11 = mCurrentBuffer s
  /\ fence_of (nextBuffer None None s) = None
  /\ mCurrentBufferSlot (snd (nextBuffer None None s)) = mCurrentBufferSlot s
  /\ mCurrentBuffer (snd (nextBuffer None None s)) = mCurrentBuffer s.
Proof.
  refine (nextBuffer_no_buffer_returns_last_success
           (mkQueue [(NO_ERROR, item 0 10 3); (NO_ERROR, item 1 11 4)]
              NO_ERROR NO_ERROR three_slots)
           hwc0 two_latches (Some 11)
           (snd (calls two_latches None two_frames)) None None no_item
           (base (snd (calls two_latches None two_frames))) _ _).
  - reflexivity.
  - reflexivity.
Defined.

Lemma nextBuffer_error_is_atomic_witness :
  let s := showing0_with [(NO_ERROR, item 1 101 7)] DEAD_OBJECT NO_ERROR in
  status_of (nextBuffer None None s) = DEAD_OBJECT
  /\ mCurrentBufferSlot (snd (nextBuffer None None s)) = 0
  /\ mCurrentBuffer (snd (nextBuffer None None s)) = Some 100.
Proof.
  intros s.
  assert (Hacq : ConsumerBase.acquireBuffer (base s)
                 = (NO_ERROR, item 1 101 7,
                    mkQueue [] DEAD_OBJECT NO_ERROR
                      [ConsumerBase.mkSlot (Some 100) None;
                       ConsumerBase.mkSlot (Some 101) (Some (mkFence 7));
                       no_slot]))
    by reflexivity.
  destruct (nextBuffer_error_is_atomic s None None _ _ _ Hacq)
    as (_ & Hrelease & Hframe).
  assert (Hstatus : status_of (nextBuffer None None s) = DEAD_OBJECT).
  { apply (Hrelease DEAD_OBJECT
             (mkQueue [] DEAD_OBJECT NO_ERROR
                [ConsumerBase.mkSlot (Some 100) None;
                 ConsumerBase.mkSlot (Some 101) (Some (mkFence 7)); no_slot])).
    - reflexivity.
    - vm_compute. discriminate.
    - vm_compute. discriminate.
    - reflexivity.
    - vm_compute. discriminate.
    - vm_compute. discriminate. }
  split; [exact Hstatus | ].
  destruct Hframe as (Hslot & Hbuf & _).
  - rewrite Hstatus. vm_compute. discriminate.
  - split; [exact Hslot | exact Hbuf].
Defined.

Lemma nextBuffer_tolerates_stale_release_witness :
  nextBuffer None None
    (showing0_with [(NO_ERROR, item 1 101 7)] BufferQueue.STALE_BUFFER_SLOT
       NO_ERROR)
  = (NO_ERROR, Some 101, Some (mkFence 7),
     mkSurface (mkQueue [] BufferQueue.STALE_BUFFER_SLOT NO_ERROR
                  [ConsumerBase.mkSlot (Some 100) None;
                   ConsumerBase.mkSlot (Some 101) (Some (mkFence 7)); no_slot])
       1 (Some 101) hwc0
       [EAcquireBuffer NO_ERROR (item 1 101 7);
        EReleaseBuffer 0 EGL_NO_DISPLAY EGL_NO_SYNC_KHR
          BufferQueue.STALE_BUFFER_SLOT]).
Proof.
  refine (nextBuffer_tolerates_stale_release
           (showing0_with [(NO_ERROR, item 1 101 7)]
              BufferQueue.STALE_BUFFER_SLOT NO_ERROR)
           None None (item 1 101 7)
           (mkQueue [] BufferQueue.STALE_BUFFER_SLOT NO_ERROR
              [ConsumerBase.mkSlot (Some 100) None;
               ConsumerBase.mkSlot (Some 101) (Some (mkFence 7)); no_slot])
           (mkQueue [] BufferQueue.STALE_BUFFER_SLOT NO_ERROR
              [ConsumerBase.mkSlot (Some 100) None;
               ConsumerBase.mkSlot (Some 101) (Some (mkFence 7)); no_slot])
           _ _ _ _).
  - reflexivity.
  - vm_compute. discriminate.
  - vm_compute. discriminate.
  - reflexivity.
Defined.

(** C5 as stated fails.  The surface shows buffer 100 from slot 0, slot 0 is
    freed, and the queue has nothing new: [nextBuffer] succeeds and returns
    buffer 100, not a null buffer. *)
Lemma nextBuffer_after_free_still_returns_buffer :
  mCurrentBufferSlot showing0 = 0
  /\ mCurrentBufferSlot (snd (freeBufferLocked 0 showing0))
     = BufferQueue.INVALID_BUFFER_SLOT
  /\ fst (fst (ConsumerBase.acquireBuffer
                 (base (snd (freeBufferLocked 0 showing0)))))
     = BufferQueue.NO_BUFFER_AVAILABLE
  /\ status_of (nextBuffer None None (snd (freeBufferLocked 0 showing0)))
     = NO_ERROR
  /\ buffer_of (nextBuffer None None (snd (freeBufferLocked 0 showing0)))
     = Some 100
  /\ buffer_of (nextBuffer None None (snd (freeBufferLocked 0 showing0)))
     <> None.
Proof.
  vm_compute. repeat split. discriminate.
Qed.

Lemma nextBuffer_after_free_returns_kept_buffer_witness :
  mCurrentBufferSlot (snd (freeBufferLocked 0 showing0))
    = BufferQueue.INVALID_BUFFER_SLOT
  /\ mCurrentBuffer (snd (freeBufferLocked 0 showing0)) = Some 100
  /\ nextBuffer None None (snd (freeBufferLocked 0 showing0))
     = (NO_ERROR, Some 100, None,
        mkSurface (mkQueue [] NO_ERROR NO_ERROR three_slots)
          BufferQueue.INVALID_BUFFER_SLOT (Some 100) hwc0
          [EFreeBuffer 0;
           EAcquireBuffer BufferQueue.NO_BUFFER_AVAILABLE no_item]).
Proof.
  refine (nextBuffer_after_free_returns_kept_buffer showing0 0 None None
            no_item (mkQueue [] NO_ERROR NO_ERROR three_slots) _ _).
  - reflexivity.
  - reflexivity.
Defined.

(** C6 at the failing input.  The surface has a current slot (0), the
    descriptor is valid (5) and the queue refuses the fence with
    [BAD_VALUE]: the fence is built and [addReleaseFence] is called on slot
    0, its error is logged, and [setReleaseFenceFd] returns [NO_ERROR]
    instead of the queue's error. *)
Theorem setReleaseFenceFd_drops_queue_error :
  let s := showing0_with [] NO_ERROR BAD_VALUE in
  trace (snd (setReleaseFenceFd 5 s))
    = [ENewFence 5;
       EAddReleaseFence 0 (Some (mkFence 5)) BAD_VALUE;
       ELog "setReleaseFenceFd: failed to add the fence: %s (%d)" BAD_VALUE]
  /\ fst (setReleaseFenceFd 5 s) = NO_ERROR
  /\ fst (setReleaseFenceFd 5 s) <> BAD_VALUE.
Proof.
  vm_compute. repeat split. discriminate.
Qed.

Lemma onFrameAvailable_posts_iff_latched_witness :
  (let s := fresh_with [(NO_ERROR, item 0 10 3)] NO_ERROR NO_ERROR in
   filter is_post (trace (snd (onFrameAvailable s)))
     = [EFbPost 0 (Some (mkFence 3)) (Some 10) NO_ERROR]
   /\ mHwc (snd (onFrameAvailable s))
      = mkHwc [(Some (mkFence 3), Some 10)] NO_ERROR)
  /\ (let s := showing0_with [(DEAD_OBJECT, no_item)] NO_ERROR NO_ERROR in
      filter is_post (trace (snd (onFrameAvailable s))) = []
      /\ mHwc (snd (onFrameAvailable s)) = hwc0).
Proof.
  split.
  - intros s.
    assert (Hnext : nextBuffer None None s
                    = (NO_ERROR, Some 10, Some (mkFence 3),
                       snd (nextBuffer None None s)))
      by reflexivity.
    destruct (onFrameAvailable_posts_iff_latched s _ _ _ _ Hnext)
      as [Hposted _].
    refine (Hposted _ NO_ERROR (mkHwc [(Some (mkFence 3), Some 10)] NO_ERROR) _);
      reflexivity.
  - intros s.
    assert (Hnext : nextBuffer None None s
                    = (DEAD_OBJECT, None, None, snd (nextBuffer None None s)))
      by reflexivity.
    destruct (onFrameAvailable_posts_iff_latched s _ _ _ _ Hnext)
      as [_ Haborted].
    destruct Haborted as (Hnone & Hhwc & _).
    + vm_compute. discriminate.
    + split; [exact Hnone | exact Hhwc].
Defined.

Lemma freeBufferLocked_other_slot_keeps_current_witness :
  mCurrentBufferSlot (snd (freeBufferLocked 1 showing0)) = 0
  /\ mCurrentBuffer (snd (freeBufferLocked 1 showing0)) = Some 100.
Proof.
  refine (freeBufferLocked_other_slot_keeps_current showing0 1 _).
  vm_compute. discriminate.
Defined.

Lemma setReleaseFenceFd_negative_is_noop_witness :
  setReleaseFenceFd (-1) showing0 = (NO_ERROR, showing0).
Proof.
  refine (setReleaseFenceFd_negative_is_noop showing0 (-1) _). lia.
Defined.

(** *** The further properties at concrete inputs *)

Lemma nextBuffer_first_latch_skips_release_witness :
  let s := fresh_with [(NO_ERROR, item 0 10 3)] NO_ERROR NO_ERROR in
  issued_by (nextBuffer None None) s = [EAcquireBuffer NO_ERROR (item 0 10 3)]
  /\ status_of (nextBuffer None None s) = NO_ERROR
  /\ buffer_of (nextBuffer None None s) = Some 10
  /\ fence_of (nextBuffer None None s) = Some (mkFence 3)
  /\ mCurrentBufferSlot (snd (nextBuffer None None s)) = 0
  /\ mCurrentBuffer (snd (nextBuffer None None s)) = Some 10.
Proof.
  intros s.
  refine (nextBuffer_first_latch_skips_release s None None (item 0 10 3)
            (snd (acquire (base s))) _ _).
  - reflexivity.
  - reflexivity.
Defined.

Lemma nextBuffer_hand_over_releases_previous_witness :
  let s := showing0_with [(NO_ERROR, item 1 101 7)] NO_ERROR NO_ERROR in
  issued_by (nextBuffer None None) s
    = [EAcquireBuffer NO_ERROR (item 1 101 7);
       EReleaseBuffer 0 EGL_NO_DISPLAY EGL_NO_SYNC_KHR NO_ERROR]
  /\ status_of (nextBuffer None None s) = NO_ERROR
  /\ mCurrentBufferSlot (snd (nextBuffer None None s)) = 1
  /\ mCurrentBuffer (snd (nextBuffer None None s)) = Some 101
  /\ base (snd (nextBuffer None None s)) = snd (acquire (base s)).
Proof.
  intros s.
  refine (nextBuffer_hand_over_releases_previous s None None (item 1 101 7)
            (snd (acquire (base s))) (snd (acquire (base s))) _ _ _ _).
  - reflexivity.
  - vm_compute. discriminate.
  - vm_compute. discriminate.
  - reflexivity.
Defined.

Lemma nextBuffer_success_latches_item_witness :
  let s := showing0_with [(NO_ERROR, item 1 101 7)]
             BufferQueue.STALE_BUFFER_SLOT NO_ERROR in
  mCurrentBufferSlot (snd (nextBuffer None None s)) = 1
  /\ mCurrentBuffer (snd (nextBuffer None None s)) = Some 101
  /\ buffer_of (nextBuffer None None s) = Some 101
  /\ fence_of (nextBuffer None None s) = Some (mkFence 7).
Proof.
  intros s.
  refine (nextBuffer_success_latches_item s None None (item 1 101 7)
            (snd (acquire (base s))) _ _).
  - reflexivity.
  - reflexivity.
Defined.



Lemma onFrameAvailable_reposts_current_witness :
  filter is_post (issued_by onFrameAvailable showing0)
    = [EFbPost 0 None (Some 100) NO_ERROR]
  /\ filter is_release (issued_by onFrameAvailable showing0) = []
  /\ mCurrentBufferSlot (snd (onFrameAvailable showing0)) = 0
  /\ mCurrentBuffer (snd (onFrameAvailable showing0)) = Some 100.
Proof.
  refine (onFrameAvailable_reposts_current showing0 no_item (base showing0)
            NO_ERROR (mkHwc [(None, Some 100)] NO_ERROR) _ _).
  - reflexivity.
  - reflexivity.
Defined.

Lemma onFrameAvailable_post_failure_keeps_latch_witness :
  let s := showing0_refusing [(NO_ERROR, item 1 101 7)] in
  snd (onFrameAvailable s)
  = mkSurface (snd (acquire (base s))) 1 (Some 101)
      (mkHwc [(Some (mkFence 7), Some 101)] DEAD_OBJECT)
      [EAcquireBuffer NO_ERROR (item 1 101 7);
       EReleaseBuffer 0 EGL_NO_DISPLAY EGL_NO_SYNC_KHR NO_ERROR;
       EFbPost 0 (Some (mkFence 7)) (Some 101) DEAD_OBJECT;
       ELog "error posting framebuffer: %d" DEAD_OBJECT].
Proof.
  intros s.
  refine (onFrameAvailable_post_failure_keeps_latch s (Some 101)
            (Some (mkFence 7)) (snd (nextBuffer None None s)) DEAD_OBJECT
            (mkHwc [(Some (mkFence 7), Some 101)] DEAD_OBJECT) _ _ _).
  - reflexivity.
  - reflexivity.
  - vm_compute. discriminate.
Defined.

Lemma onFrameAvailable_posts_current_buffer_witness :
  let s := fresh_with [(NO_ERROR, item 0 10 3)] NO_ERROR NO_ERROR in
  0 = 0
  /\ status_of (nextBuffer None None s) = NO_ERROR
  /\ Some (mkFence 3) = fence_of (nextBuffer None None s)
  /\ Some 10 = mCurrentBuffer (snd (onFrameAvailable s)).
Proof.
  intros s.
  destruct (onFrameAvailable_posts_current_buffer s) as (_ & _ & _ & Hposted).
  apply (Hposted 0 (Some (mkFence 3)) (Some 10) NO_ERROR).
  vm_compute. right. left. reflexivity.
Defined.

Lemma nextBuffer_after_free_skips_release_witness :
  let s := showing0_with [(NO_ERROR, item 0 101 7)] NO_ERROR NO_ERROR in
  let freed := snd (freeBufferLocked 0 s) in
  issued_by (nextBuffer None None) freed = [EAcquireBuffer NO_ERROR (item 0 101 7)]
  /\ status_of (nextBuffer None None freed) = NO_ERROR
  /\ mCurrentBufferSlot (snd (nextBuffer None None freed)) = 0
  /\ mCurrentBuffer (snd (nextBuffer None None freed)) = Some 101.
Proof.
  intros s.
  refine (nextBuffer_after_free_skips_release s None None (item 0 101 7)
            (snd (acquire (free 0 (base s)))) _).
  reflexivity.
Defined.

Lemma freeBufferLocked_slot_not_used_after_witness :
  let freed := snd (freeBufferLocked 0 showing0) in
  mCurrentBufferSlot freed <> 0
  /\ (forall dpy sync err,
        ~ In (EReleaseBuffer 0 dpy sync err)
             (issued_by (nextBuffer None None) freed))
  /\ (forall fence err,
        ~ In (EAddReleaseFence 0 fence err)
             (issued_by (setReleaseFenceFd 5) freed)).
Proof.
  refine (freeBufferLocked_slot_not_used_after showing0 0 None None 5 _).
  vm_compute. discriminate.
Defined.

Lemma setReleaseFenceFd_attaches_to_current_witness :
  let s := showing0_with [] NO_ERROR BAD_VALUE in
  issued_by (setReleaseFenceFd 5) s
    = [ENewFence 5; EAddReleaseFence 0 (Some (mkFence 5)) BAD_VALUE;
       ELog "setReleaseFenceFd: failed to add the fence: %s (%d)" BAD_VALUE]
  /\ base (snd (setReleaseFenceFd 5 s)) = base s.
Proof.
  intros s.
  refine (setReleaseFenceFd_attaches_to_current s 5 BAD_VALUE (base s) _ _ _).
  - lia.
  - vm_compute. discriminate.
  - reflexivity.
Defined.

Lemma setReleaseFenceFd_without_slot_consumes_fd_witness :
  let s := fresh_with [] NO_ERROR NO_ERROR in
  setReleaseFenceFd 5 s
  = (NO_ERROR,
     mkSurface (base s) BufferQueue.INVALID_BUFFER_SLOT None hwc0 [ENewFence 5]).
Proof.
  intros s.
  refine (setReleaseFenceFd_without_slot_consumes_fd s 5 _ _).
  - lia.
  - reflexivity.
Defined.

(** A trace that releases a slot nobody delivered is told apart, and the
    busy history does hand slots back. *)
Example well_targeted_tells_apart :
  well_targeted (GraphicBuffer := Buffer) []
    [EReleaseBuffer 0 EGL_NO_DISPLAY EGL_NO_SYNC_KHR NO_ERROR] = false
  /\ well_targeted []
       [EAcquireBuffer NO_ERROR (item 0 10 3);
        EReleaseBuffer 0 EGL_NO_DISPLAY EGL_NO_SYNC_KHR NO_ERROR] = true
  /\ filter (fun e => is_release e || is_add_release_fence e)
       (trace (snd (calls busy_history None two_frames)))
     = [EAddReleaseFence 0 (Some (mkFence 9)) NO_ERROR;
        EReleaseBuffer 0 EGL_NO_DISPLAY EGL_NO_SYNC_KHR NO_ERROR].
Proof.
  vm_compute. repeat split.
Qed.

End Concrete.
